(** * disk_report: the script execution subsystem (bash_executor.py)

  A shallow embedding of [BashExecutor] and the properties its
  specification states about it, followed by the code around it: the
  run commands of the command line (cli.py, with the message helpers of
  utils.py) and the mapping of script names to files (script_manager.py).

  Python [str] values are modelled as [string]; every [ascii] stands for
  the code point of the same number (0..255), and the character tables
  below ([isspace], [isword]) are Python's for those code points. *)

From Stdlib Require Import ZArith Ascii String List Bool Lia DecimalString.
From stdpp Require Import base gmap sets list strings sorting.

Local Open Scope Z_scope.

(* ===================================================================== *)
(** * Python string primitives                                            *)
(* ===================================================================== *)

Module PyStr.

Definition chr (n : nat) : ascii := ascii_of_nat n.
Definition ord (c : ascii) : nat := nat_of_ascii c.

Definition LF : ascii := chr 10.
(** The one-character string ["\n"]. *)
Definition nl : string := String LF EmptyString.

(** [str.isspace] on one character: code points 9-13, 28-32, 133, 160. *)
Definition isspace (c : ascii) : bool :=
  let n := ord c in
  ((9 <=? n) && (n <=? 13) || (28 <=? n) && (n <=? 32)
   || (n =? 133) || (n =? 160))%nat.

(** [s.lstrip()] *)
Fixpoint lstrip (s : string) : string :=
  match s with
  | EmptyString => EmptyString
  | String c s' => if isspace c then lstrip s' else s
  end.

(** [s.rstrip()] *)
Fixpoint rstrip (s : string) : string :=
  match s with
  | EmptyString => EmptyString
  | String c s' =>
      match rstrip s' with
      | EmptyString => if isspace c then EmptyString else String c EmptyString
      | r => String c r
      end
  end.

(** [s.strip()] *)
Definition strip (s : string) : string := rstrip (lstrip s).

(** [s.split(sep)] for a one-character separator: never the empty list. *)
Fixpoint split (sep : ascii) (s : string) : list string :=
  match s with
  | EmptyString => [EmptyString]
  | String c s' =>
      if Ascii.eqb c sep then EmptyString :: split sep s'
      else match split sep s' with
           | h :: t => String c h :: t
           | [] => [String c EmptyString]
           end
  end.

(** [sep.join(ls)] *)
Definition join (sep : string) (ls : list string) : string :=
  String.concat sep ls.

(** [s.startswith(p)] *)
Fixpoint startswith (s p : string) : bool :=
  match p with
  | EmptyString => true
  | String a p' =>
      match s with
      | EmptyString => false
      | String b s' => Ascii.eqb a b && startswith s' p'
      end
  end.

(** [str(n)] / [f"{n}"] for an [int]. *)
Definition str_int (n : Z) : string := NilZero.string_of_int (Z.to_int n).

(** Truthiness of a [str]. *)
Definition truthy (s : string) : bool :=
  match s with EmptyString => false | _ => true end.

(** Empty, or nothing but whitespace. *)
Fixpoint whitespace_only (s : string) : bool :=
  match s with
  | EmptyString => true
  | String c s' => isspace c && whitespace_only s'
  end.

(** Last character, when there is one. *)
Fixpoint last_char (s : string) : option ascii :=
  match s with
  | EmptyString => None
  | String c EmptyString => Some c
  | String _ s' => last_char s'
  end.

(** The text after the first line break (empty when there is none). *)
Fixpoint after_first_line (s : string) : string :=
  match s with
  | EmptyString => EmptyString
  | String c s' => if Ascii.eqb c LF then s' else after_first_line s'
  end.

End PyStr.

(* ===================================================================== *)
(** * Script Wrapper: [BashExecutor._prepare_script]                      *)
(* ===================================================================== *)

Module Wrapper.
Import PyStr.

Definition safety_header : list string :=
  [ "#!/bin/bash";
    "";
    "# Script execution safety measures";
    "set -euo pipefail  # Exit on error, undefined vars, pipe failures";
    "";
    "# Function to handle cleanup on exit";
    "cleanup() {";
    String.append "    echo " (String (chr 34) (String.append "Script execution finished" (String (chr 34) "")));
    "}";
    "trap cleanup EXIT";
    "";
    "# Script content begins here" ]%string.

(** [lines[0]]; [split] never returns the empty list. *)
Definition head_line (lines : list string) : string :=
  match lines with h :: _ => h | [] => EmptyString end.

Definition _prepare_script (content : string) : string :=
  (* Add shebang if not present: [lines] is built and then never read *)
  let lines := split LF (strip content) in
  let lines :=
    if negb (startswith (head_line lines) "#!")
    then "#!/bin/bash"%string :: lines else lines in
  (* Combine safety header with original content *)
  let script_content := strip content in
  let script_content :=
    if startswith script_content "#!/"
    then join nl (tl (split LF script_content))
    else script_content in
  join nl (safety_header ++ [EmptyString; script_content]).

(** The interpreter directive the wrapper supplies. *)
Definition directive : string := "#!/bin/bash".

(** The preamble without the directive line, up to and including the
    blank line that precedes the content. *)
Definition preamble : string :=
  String.append (join nl (tl safety_header)) (String.append nl nl).

(** What the specification calls prepare_body_without_directive: the
    wrapper's output with its directive line removed. *)
Definition prepare_body_without_directive (content : string) : string :=
  after_first_line (_prepare_script content).

(** Number of lines of [s] equal to [line]. *)
Definition count_line (line s : string) : nat :=
  length (filter (fun l => l = line) (split LF s)).

Definition strict_mode_line : string :=
  "set -euo pipefail  # Exit on error, undefined vars, pipe failures".
Definition trap_line : string := "trap cleanup EXIT".

(** The preamble from its first comment line on (no leading blank line). *)
Definition preamble_text : string := after_first_line preamble.

(** The preamble is present exactly once. *)
Definition injected_once (s : string) : Prop :=
  count_line strict_mode_line s = 1%nat /\ count_line trap_line s = 1%nat.

End Wrapper.

(* ===================================================================== *)
(** * Python exceptions and the effect monad                              *)
(* ===================================================================== *)

Module Py.

(** The exception classes the executor can meet. [UnicodeEncodeError]
    derives from [ValueError] (through [UnicodeError], which is not
    listed): it is what writing a text that UTF-8 cannot encode raises. *)
Inductive exn_class : Set :=
| BaseException
| KeyboardInterrupt
| Exception
| ValueError
| UnicodeEncodeError
| AttributeError
| OSError
| ProcessLookupError
| FileNotFoundError
| PermissionError
| TimeoutExpired.

Definition exn_class_eqb (a b : exn_class) : bool :=
  match a, b with
  | BaseException, BaseException | KeyboardInterrupt, KeyboardInterrupt
  | Exception, Exception | ValueError, ValueError
  | UnicodeEncodeError, UnicodeEncodeError
  | AttributeError, AttributeError | OSError, OSError
  | ProcessLookupError, ProcessLookupError
  | FileNotFoundError, FileNotFoundError
  | PermissionError, PermissionError
  | TimeoutExpired, TimeoutExpired => true
  | _, _ => false
  end.

(** Method resolution order: the class itself, then its ancestors. *)
Definition mro (c : exn_class) : list exn_class :=
  match c with
  | BaseException => [BaseException]
  | KeyboardInterrupt => [KeyboardInterrupt; BaseException]
  | Exception => [Exception; BaseException]
  | ValueError => [ValueError; Exception; BaseException]
  | UnicodeEncodeError =>
      [UnicodeEncodeError; ValueError; Exception; BaseException]
  | AttributeError => [AttributeError; Exception; BaseException]
  | OSError => [OSError; Exception; BaseException]
  | ProcessLookupError => [ProcessLookupError; OSError; Exception; BaseException]
  | FileNotFoundError => [FileNotFoundError; OSError; Exception; BaseException]
  | PermissionError => [PermissionError; OSError; Exception; BaseException]
  | TimeoutExpired => [TimeoutExpired; Exception; BaseException]
  end.

Definition issubclass (c d : exn_class) : bool :=
  existsb (exn_class_eqb d) (mro c).

Record exn : Type := mk_exn { exn_cls : exn_class; exn_str : string }.

(** [isinstance(e, (c1, c2, ...))] *)
Definition isinstance (e : exn) (cs : list exn_class) : bool :=
  existsb (issubclass (exn_cls e)) cs.

Inductive outcome (A : Type) : Type :=
| Return (a : A)
| Raise (e : exn).
Arguments Return {A} a.
Arguments Raise {A} e.

Definition returned {A} (r : outcome A) : bool :=
  match r with Return _ => true | Raise _ => false end.

(** [raises_only cs r]: [r] is a normal return or an exception of one of
    the classes [cs]. *)
Definition raises_only {A} (cs : list exn_class) (r : outcome A) : bool :=
  match r with Return _ => true | Raise e => isinstance e cs end.

End Py.

(* ===================================================================== *)
(** * Result Model                                                        *)
(* ===================================================================== *)

Module Result.

Record ExecutionResult : Type := {
  returncode : Z;
  stdout : string;
  stderr : string;
  execution_time : Z;   (* clock ticks; the float arithmetic is not modelled *)
  timeout : bool
}.

End Result.

(* ===================================================================== *)
(** * Operating system interface                                          *)
(* ===================================================================== *)

Module Sys.
Import Py.

Inductive signal : Set := SIGINT | SIGTERM | SIGKILL.

(** One interaction with the operating system, with its outcome. *)
Inductive event : Type :=
| EvTempFile (content : string) (r : outcome string)
    (* The whole with-block over NamedTemporaryFile(mode='w', suffix='.sh',
       delete=False, encoding='utf-8'): create, write, read the name,
       close. [Return path]: the block completed and the file [path]
       holds the content. [Raise e]: the block raised [e], be it that the
       file could not be created or that it was created and writing or
       closing it failed; in the latter case the file is left behind. *)
| EvChmod (path : string) (mode : Z) (r : outcome unit)
| EvTime (t : Z)
| EvPopen (argv : list string) (cwd : string) (bash_env : string)
    (new_session : bool) (r : outcome Z)
| EvCommunicate (pid : Z) (timeout : Z) (r : outcome (string * string * Z))
| EvGetpgid (pid : Z) (r : outcome Z)
| EvKillpg (pgid : Z) (sig : signal) (r : outcome unit)
| EvWait (pid : Z) (timeout : option Z) (r : outcome Z)
| EvUnlink (path : string) (r : outcome unit)
| EvRun (argv : list string) (timeout : Z) (r : outcome (Z * string * string)).

(** The environment: how the operating system answers each call, given
    everything that happened before. *)
Record OS : Type := {
  os_tempfile : list event -> string -> outcome string;
  os_chmod : list event -> string -> Z -> outcome unit;
  os_time : list event -> Z;
  os_popen : list event -> list string -> string -> outcome Z;
  os_communicate : list event -> Z -> Z -> outcome (string * string * Z);
  os_getpgid : list event -> Z -> outcome Z;
  os_killpg : list event -> Z -> signal -> outcome unit;
  os_wait : list event -> Z -> option Z -> outcome Z;
  os_unlink : list event -> string -> outcome unit;
  os_run : list event -> list string -> Z -> outcome (Z * string * string)
}.

End Sys.

(* ===================================================================== *)
(** * Execution Controller and Process Runner: [BashExecutor]             *)
(* ===================================================================== *)

Module Controller.
Import PyStr Py Sys.

(** The fields of a [BashExecutor]; a [Popen] object is its pid. *)
Record BashExecutor : Type := {
  timeout : Z;
  working_dir : string;
  current_process : option Z
}.

(** The controller object together with the log of what the operating
    system was asked and answered. *)
Record world : Type := {
  self : BashExecutor;
  events : list event
}.

(** Computations read the environment, update the world and either return
    or raise. *)
Definition M (A : Type) : Type := OS -> world -> outcome A * world.

Definition ret {A} (a : A) : M A := fun _ w => (Return a, w).

Definition raise {A} (e : exn) : M A := fun _ w => (Raise e, w).

Definition bind {A B} (m : M A) (k : A -> M B) : M B :=
  fun os w =>
    match m os w with
    | (Return a, w') => k a os w'
    | (Raise e, w') => (Raise e, w')
    end.

Notation "x <- m ;; k" := (bind m (fun x => k))
  (at level 90, m at level 89, right associativity).
Notation "m ;;; k" := (bind m (fun _ => k))
  (at level 90, right associativity).

(** One [except (c1, c2, ...) as e: handler] clause. *)
Definition clause (A : Type) : Type := (list exn_class * (exn -> M A))%type.

(** The first clause whose classes match the exception, as Python picks it. *)
Fixpoint select_clause {A} (e : exn) (cs : list (clause A)) : option (exn -> M A) :=
  match cs with
  | [] => None
  | (classes, h) :: cs' =>
      if isinstance e classes then Some h else select_clause e cs'
  end.

(** [try: body  except ...: ...] *)
Definition try_except {A} (body : M A) (cs : list (clause A)) : M A :=
  fun os w =>
    match body os w with
    | (Return a, w') => (Return a, w')
    | (Raise e, w') =>
        match select_clause e cs with
        | Some h => h e os w'
        | None => (Raise e, w')
        end
    end.

(** [try: body  finally: fin]: [fin] always runs; an exception of [fin]
    replaces the outcome of [body]. *)
Definition try_finally {A} (body : M A) (fin : M unit) : M A :=
  fun os w =>
    match body os w with
    | (r, w') =>
        match fin os w' with
        | (Return _, w'') => (r, w'')
        | (Raise e, w'') => (Raise e, w'')
        end
    end.

(** [pass] *)
Definition pass : M unit := ret tt.

(** ** Reading and writing [self] *)

Definition get_self : M BashExecutor := fun _ w => (Return (self w), w).

Definition set_current_process (p : option Z) : M unit :=
  fun _ w =>
    (Return tt,
     {| self := {| timeout := timeout (self w);
                   working_dir := working_dir (self w);
                   current_process := p |};
        events := events w |}).

(** [self.current_process.<attr>]: fails on [None]. *)
Definition current_process_obj : M Z :=
  fun _ w =>
    match current_process (self w) with
    | Some p => (Return p, w)
    | None =>
        (Raise (mk_exn AttributeError "'NoneType' object has no attribute"), w)
    end.

(** ** System calls *)

Definition syscall {A} (ask : OS -> list event -> outcome A)
    (log : outcome A -> event) : M A :=
  fun os w =>
    let r := ask os (events w) in
    (r, {| self := self w; events := events w ++ [log r] |}).

Definition time_time : M Z :=
  fun os w =>
    let t := os_time os (events w) in
    (Return t, {| self := self w; events := events w ++ [EvTime t] |}).

(** [with tempfile.NamedTemporaryFile(...) as f: f.write(content);
    path = f.name], as one interaction: the block either completes, and
    yields the path of the written file, or raises. Which of its steps
    raised is not recorded. *)
Definition NamedTemporaryFile_write (content : string) : M string :=
  syscall (fun os h => os_tempfile os h content) (EvTempFile content).

Definition os_chmod_ (path : string) (mode : Z) : M unit :=
  syscall (fun os h => os_chmod os h path mode) (EvChmod path mode).

(** [subprocess.Popen(argv, stdout=PIPE, stderr=PIPE, text=True, cwd=cwd,
    env=env, preexec_fn=os.setsid)] with [env['BASH_ENV'] = bash_env]. *)
Definition Popen (argv : list string) (cwd bash_env : string) : M Z :=
  syscall (fun os h => os_popen os h argv cwd) (EvPopen argv cwd bash_env true).

Definition communicate (pid t : Z) : M (string * string * Z) :=
  syscall (fun os h => os_communicate os h pid t) (EvCommunicate pid t).

Definition getpgid (pid : Z) : M Z :=
  syscall (fun os h => os_getpgid os h pid) (EvGetpgid pid).

Definition killpg (pgid : Z) (sig : signal) : M unit :=
  syscall (fun os h => os_killpg os h pgid sig) (EvKillpg pgid sig).

Definition wait (pid : Z) (t : option Z) : M Z :=
  syscall (fun os h => os_wait os h pid t) (EvWait pid t).

Definition unlink (path : string) : M unit :=
  syscall (fun os h => os_unlink os h path) (EvUnlink path).

Definition subprocess_run (argv : list string) (t : Z) : M (Z * string * string) :=
  syscall (fun os h => os_run os h argv t) (EvRun argv t).

(** ** The class *)

(** [BashExecutor(timeout=30, working_dir=None)]; [cwd] is [Path.cwd()]. *)
Definition __init__ (timeout : option Z) (working_dir : option string)
    (cwd : string) : BashExecutor :=
  {| timeout := default 30 timeout;
     working_dir := default cwd working_dir;
     current_process := None |}.

(** [timeout or self.timeout]: [None] and [0] are both falsy. *)
Definition timeout_or (t : option Z) (self_timeout : Z) : Z :=
  match t with
  | Some n => if n =? 0 then self_timeout else n
  | None => self_timeout
  end.

(** The escalation inside [except subprocess.TimeoutExpired]. *)
Definition kill_process_group : M unit :=
  try_except
    (p <- current_process_obj ;;
     g <- getpgid p ;;
     killpg g SIGTERM ;;;
     (* Give it a chance to terminate gracefully *)
     try_except
       (p <- current_process_obj ;;
        wait p (Some 5) ;;;
        ret tt)
       [([TimeoutExpired],
         fun _ =>
           (* Force kill if it doesn't terminate *)
           p <- current_process_obj ;;
           g <- getpgid p ;;
           killpg g SIGKILL ;;;
           p <- current_process_obj ;;
           wait p None ;;;
           ret tt)])
    [([OSError; ProcessLookupError], fun _ => pass)].

Definition timed_out_message (t : Z) : string :=
  String.append "Script execution timed out after "
    (String.append (str_int t) " seconds").

Definition _run_script (script_path : string) (t : Z)
  : M Result.ExecutionResult :=
  start_time <- time_time ;;
  try_finally
    (try_except
       (s <- get_self ;;
        p <- Popen ["/bin/bash"%string; script_path] (working_dir s) "/dev/null" ;;
        set_current_process (Some p) ;;;
        try_except
          (p <- current_process_obj ;;
           r <- communicate p t ;;
           now <- time_time ;;
           ret {| Result.returncode := snd r;
                  Result.stdout := fst (fst r);
                  Result.stderr := snd (fst r);
                  Result.execution_time := now - start_time;
                  Result.timeout := false |})
          [([TimeoutExpired],
            fun _ =>
              kill_process_group ;;;
              now <- time_time ;;
              ret {| Result.returncode := -1;
                     Result.stdout := "";
                     Result.stderr := timed_out_message t;
                     Result.execution_time := now - start_time;
                     Result.timeout := true |})])
       [([Exception],
         fun e =>
           now <- time_time ;;
           ret {| Result.returncode := -1;
                  Result.stdout := "";
                  Result.stderr := String.append "Execution error: " (exn_str e);
                  Result.execution_time := now - start_time;
                  Result.timeout := false |})])
    (set_current_process None).

(** The [finally] of [execute] and of [validate_script_syntax]. *)
Definition remove_temp_file (path : string) : M unit :=
  try_except (unlink path) [([OSError], fun _ => pass)].

Definition execute (script_content : string) (t : option Z)
  : M Result.ExecutionResult :=
  if negb (truthy (strip script_content))
  then raise (mk_exn ValueError "Script content cannot be empty")
  else
    s <- get_self ;;
    let t := timeout_or t (timeout s) in
    (* Create temporary script file *)
    temp_script_path <-
      NamedTemporaryFile_write (Wrapper._prepare_script script_content) ;;
    try_finally
      ((* Make script executable *)
       os_chmod_ temp_script_path 493 ;;;
       (* Execute script *)
       _run_script temp_script_path t)
      (remove_temp_file temp_script_path).

Definition execute_command (command : string) (t : option Z)
  : M Result.ExecutionResult :=
  execute command t.

Definition interrupt_execution : M unit :=
  s <- get_self ;;
  match current_process s with
  | Some _ =>
      try_except
        (p <- current_process_obj ;;
         g <- getpgid p ;;
         killpg g SIGINT)
        [([OSError; ProcessLookupError], fun _ => pass)]
  | None => ret tt
  end.

(** [a or b] on strings. *)
Definition str_or (a b : string) : string := if truthy a then a else b.

Definition validate_script_syntax (script_content : string)
  : M (bool * string) :=
  if negb (truthy (strip script_content))
  then ret (false, "Script content is empty"%string)
  else
    temp_script_path <- NamedTemporaryFile_write script_content ;;
    try_finally
      (try_except
         ((* Use bash -n to check syntax without execution *)
          result <- subprocess_run ["/bin/bash"; "-n"; temp_script_path]%string 10 ;;
          if fst (fst result) =? 0
          then ret (true, "Syntax is valid"%string)
          else ret (false, str_or (strip (snd result)) "Syntax error detected"))
         [([TimeoutExpired], fun _ => ret (false, "Syntax check timed out"%string));
          ([Exception],
           fun e => ret (false, String.append "Syntax check failed: " (exn_str e)))])
      (remove_temp_file temp_script_path).

(** Running a computation from a world gives the outcome and the world
    after it. *)
Definition run {A} (m : M A) (os : OS) (w : world) : outcome A * world :=
  m os w.

(** The events a computation added to the log. *)
Definition new_events {A} (m : M A) (os : OS) (w : world) : list event :=
  drop (length (events w)) (events (snd (m os w))).

(** ** What the environment may do *)

(** Every call raises only what its documentation allows: [OSError] and its
    subclasses from the file and signal calls, [TimeoutExpired] from a
    bounded wait, nothing from an unbounded wait, and some [Exception]
    from spawning and from reading the output. *)
Record well_behaved (os : OS) : Prop := {
  wb_tempfile : forall h c, raises_only [OSError] (os_tempfile os h c) = true;
  wb_chmod : forall h p m, raises_only [OSError] (os_chmod os h p m) = true;
  wb_popen : forall h a c, raises_only [Exception] (os_popen os h a c) = true;
  wb_communicate :
    forall h p t, raises_only [Exception] (os_communicate os h p t) = true;
  wb_getpgid : forall h p, raises_only [OSError] (os_getpgid os h p) = true;
  wb_killpg : forall h g s, raises_only [OSError] (os_killpg os h g s) = true;
  wb_wait_bounded :
    forall h p t, raises_only [TimeoutExpired] (os_wait os h p (Some t)) = true;
  wb_wait : forall h p, returned (os_wait os h p None) = true;
  wb_unlink : forall h p, raises_only [OSError] (os_unlink os h p) = true;
  wb_run : forall h a t, raises_only [Exception] (os_run os h a t) = true
}.

(** The temporary script file can be written and made executable. *)
Definition prepares (os : OS) : Prop :=
  (forall h c, returned (os_tempfile os h c) = true) /\
  (forall h p m, returned (os_chmod os h p m) = true).

(** The interpreter can be spawned. *)
Definition spawns (os : OS) : Prop :=
  forall h a c, returned (os_popen os h a c) = true.

(** Spawning the interpreter fails with [e]. *)
Definition spawn_fails (os : OS) (e : exn) : Prop :=
  forall h a c, os_popen os h a c = Raise e.



(** The result of a run that timed out after [t] seconds, [d] ticks long. *)
Definition timed_out_result (t d : Z) : Result.ExecutionResult :=
  {| Result.returncode := -1;
     Result.stdout := "";
     Result.stderr := timed_out_message t;
     Result.execution_time := d;
     Result.timeout := true |}.

(** The result of a run whose spawn failed with [e]. *)
Definition spawn_failed_result (e : exn) (d : Z) : Result.ExecutionResult :=
  {| Result.returncode := -1;
     Result.stdout := "";
     Result.stderr := String.append "Execution error: " (exn_str e);
     Result.execution_time := d;
     Result.timeout := false |}.

(** An event that is a wait for output bounded by zero seconds. *)
Definition zero_second_wait (ev : event) : Prop :=
  exists p r, ev = EvCommunicate p 0 r.

(** No process is recorded as running. *)
Definition handle_clear (w : world) : Prop := current_process (self w) = None.

(** The worlds a controller can be in between two calls. *)
Inductive reachable : world -> Prop :=
| reach_init t wd cwd :
    reachable {| self := __init__ t wd cwd; events := [] |}
| reach_execute w os c t :
    reachable w -> reachable (snd (execute c t os w))
| reach_execute_command w os c t :
    reachable w -> reachable (snd (execute_command c t os w))
| reach_interrupt w os :
    reachable w -> reachable (snd (interrupt_execution os w))
| reach_validate w os c :
    reachable w -> reachable (snd (validate_script_syntax c os w)).

(** [post m os w Q]: running [m] from [w] ends in an outcome and a world
    that satisfy [Q]. *)
Definition post {A} (m : M A) (os : OS) (w : world)
    (Q : outcome A -> world -> Prop) : Prop :=
  Q (fst (m os w)) (snd (m os w)).

End Controller.

(* ===================================================================== *)
(** * Some concrete environments                                          *)
(* ===================================================================== *)

Module Env.
Import Py Sys Controller.

(** Everything works and the script prints [hi]. *)
Definition os_ok : OS :=
  {| os_tempfile := fun _ _ => Return "/tmp/tmp1a2b3c.sh"%string;
     os_chmod := fun _ _ _ => Return tt;
     os_time := fun h => Z.of_nat (length h);
     os_popen := fun _ _ _ => Return 4242;
     os_communicate :=
       fun _ _ _ => Return (String.append "hi" PyStr.nl, EmptyString, 0);
     os_getpgid := fun _ p => Return p;
     os_killpg := fun _ _ _ => Return tt;
     os_wait := fun _ _ _ => Return 0;
     os_unlink := fun _ _ => Return tt;
     os_run := fun _ _ _ => Return (0, EmptyString, EmptyString) |}.

Definition timeout_expired : exn :=
  mk_exn TimeoutExpired "Command timed out".

(** The script never finishes and ignores SIGTERM. *)
Definition os_slow : OS :=
  {| os_tempfile := os_tempfile os_ok;
     os_chmod := os_chmod os_ok;
     os_time := os_time os_ok;
     os_popen := os_popen os_ok;
     os_communicate := fun _ _ _ => Raise timeout_expired;
     os_getpgid := os_getpgid os_ok;
     os_killpg := os_killpg os_ok;
     os_wait :=
       fun _ _ t =>
         match t with
         | Some _ => Raise timeout_expired
         | None => Return (-9)
         end;
     os_unlink := os_unlink os_ok;
     os_run := fun _ _ _ => Raise timeout_expired |}.

Definition no_such_file : exn :=
  mk_exn FileNotFoundError "[Errno 2] No such file or directory: '/bin/bash'".

(** There is no interpreter to spawn. *)
Definition os_no_bash : OS :=
  {| os_tempfile := os_tempfile os_ok;
     os_chmod := os_chmod os_ok;
     os_time := os_time os_ok;
     os_popen := fun _ _ _ => Raise no_such_file;
     os_communicate := os_communicate os_ok;
     os_getpgid := os_getpgid os_ok;
     os_killpg := os_killpg os_ok;
     os_wait := os_wait os_ok;
     os_unlink := os_unlink os_ok;
     os_run := fun _ _ _ => Raise no_such_file |}.

Definition no_such_process : exn :=
  mk_exn ProcessLookupError "[Errno 3] No such process".

(** Every process is already gone when it is looked up. *)
Definition os_gone : OS :=
  {| os_tempfile := os_tempfile os_ok;
     os_chmod := os_chmod os_ok;
     os_time := os_time os_ok;
     os_popen := os_popen os_ok;
     os_communicate := os_communicate os_ok;
     os_getpgid := fun _ _ => Raise no_such_process;
     os_killpg := fun _ _ _ => Raise no_such_process;
     os_wait := os_wait os_ok;
     os_unlink := os_unlink os_ok;
     os_run := os_run os_ok |}.

(** The syntax check finds an error. *)
Definition os_syntax_error : OS :=
  {| os_tempfile := os_tempfile os_ok;
     os_chmod := os_chmod os_ok;
     os_time := os_time os_ok;
     os_popen := os_popen os_ok;
     os_communicate := os_communicate os_ok;
     os_getpgid := os_getpgid os_ok;
     os_killpg := os_killpg os_ok;
     os_wait := os_wait os_ok;
     os_unlink := os_unlink os_ok;
     os_run :=
       fun _ _ _ =>
         Return (2, EmptyString,
                 String.append "line 1: unexpected EOF while looking for matching `''"
                   PyStr.nl) |}.

(** A freshly constructed controller, with the default timeout. *)
Definition fresh : world :=
  {| self := __init__ None None "/home/user"; events := [] |}.

(** The same controller while process [77] runs under it. *)
Definition busy : world :=
  {| self := {| timeout := 30; working_dir := "/home/user";
                current_process := Some 77 |};
     events := [] |}.

End Env.

(* ===================================================================== *)
(** * Dependency scan: [BashExecutor.get_script_dependencies]             *)
(* ===================================================================== *)

Module Deps.
Import PyStr.

(** [\w] of the [re] module on [str] patterns: alphanumerics and [_]. *)
Definition isword (c : ascii) : bool :=
  let n := ord c in
  ((48 <=? n) && (n <=? 57) || (65 <=? n) && (n <=? 90) || (n =? 95)
   || (97 <=? n) && (n <=? 122)
   || (n =? 170) || (n =? 178) || (n =? 179) || (n =? 181)
   || (n =? 185) || (n =? 186) || (188 <=? n) && (n <=? 190)
   || (192 <=? n) && (n <=? 214) || (216 <=? n) && (n <=? 246)
   || (248 <=? n) && (n <=? 255))%nat.

(** The class [[\w-]]. *)
Definition word_or_dash (c : ascii) : bool := isword c || Ascii.eqb c "-".

(** The constructs the pattern table is written with. *)
Inductive node : Type :=
| Lit (c : ascii)                  (* a literal character *)
| WordBoundary                     (* \b *)
| Plus (cls : ascii -> bool)       (* cls+ , greedy *)
| GroupPlus (cls : ascii -> bool). (* (cls+) , the capturing group *)

Definition pattern : Type := list node.

Fixpoint lits (s : string) : pattern :=
  match s with
  | EmptyString => []
  | String c s' => Lit c :: lits s'
  end.

(** A successful match: the text of group 1 and the number of characters
    the whole match spans. *)
Definition found : Type := (option string * nat)%type.

(** [cls*] followed by the continuation [k], longest first, giving back
    characters one at a time when [k] fails. *)
Fixpoint star (cls : ascii -> bool)
    (k : string -> option ascii -> string -> option found)
    (taken : string) (prev : option ascii) (s : string) : option found :=
  match s with
  | String c s' =>
      if cls c then
        match star cls k (String.append taken (String c EmptyString)) (Some c) s' with
        | Some r => Some r
        | None => k taken prev s
        end
      else k taken prev s
  | EmptyString => k taken prev s
  end.

(** [cls+] followed by [k]. *)
Definition plus (cls : ascii -> bool)
    (k : string -> option ascii -> string -> option found)
    (prev : option ascii) (s : string) : option found :=
  match s with
  | String c s' =>
      if cls c then star cls k (String c EmptyString) (Some c) s' else None
  | EmptyString => None
  end.

Definition isword_at (c : option ascii) : bool :=
  match c with Some c => isword c | None => false end.

Definition first_char (s : string) : option ascii :=
  match s with String c _ => Some c | EmptyString => None end.

(** Match [p] at the start of [s]; [prev] is the character before [s],
    [group] the text captured so far and [n] the characters consumed. *)
Fixpoint match_here (p : pattern) {struct p}
  : option string -> nat -> option ascii -> string -> option found :=
  match p with
  | [] => fun group n _ _ => Some (group, n)
  | Lit c :: p' =>
      fun group n _ s =>
        match s with
        | String d s' =>
            if Ascii.eqb c d then match_here p' group (S n) (Some d) s' else None
        | EmptyString => None
        end
  | WordBoundary :: p' =>
      fun group n prev s =>
        if xorb (isword_at prev) (isword_at (first_char s))
        then match_here p' group n prev s else None
  | Plus cls :: p' =>
      fun group n prev s =>
        plus cls
          (fun taken prev' s' =>
             match_here p' group (n + String.length taken)%nat prev' s')
          prev s
  | GroupPlus cls :: p' =>
      fun _ n prev s =>
        plus cls
          (fun taken prev' s' =>
             match_here p' (Some taken) (n + String.length taken)%nat prev' s')
          prev s
  end.

(** The text [findall] reports for a match of a one-group pattern. *)
Definition group_text (g : option string) : string := default EmptyString g.

(** [re.findall]: non-overlapping matches, leftmost first; after a match of
    [n] characters the scan resumes behind it ([skip] counts the characters
    still inside the previous match). *)
Fixpoint findall_from (p : pattern) (prev : option ascii) (skip : nat)
    (s : string) : list string :=
  match s with
  | EmptyString =>
      match skip, match_here p None 0%nat prev EmptyString with
      | O, Some (g, _) => [group_text g]
      | _, _ => []
      end
  | String c s' =>
      match skip with
      | S k => findall_from p (Some c) k s'
      | O =>
          match match_here p None 0%nat prev s with
          | Some (g, n) => group_text g :: findall_from p (Some c) (Nat.pred n) s'
          | None => findall_from p (Some c) 0%nat s'
          end
      end
  end.

Definition findall (p : pattern) (s : string) : list string :=
  findall_from p None 0%nat s.

(** The table of [command_patterns]. *)
Definition command_patterns : list pattern :=
  [ (* \b([\w-]+)\s+ *)
    [WordBoundary; GroupPlus word_or_dash; Plus isspace];
    (* which\s+([\w-]+) *)
    lits "which" ++ [Plus isspace; GroupPlus word_or_dash];
    (* command\s+-v\s+([\w-]+) *)
    lits "command" ++ [Plus isspace] ++ lits "-v"
      ++ [Plus isspace; GroupPlus word_or_dash];
    (* \$\(([\w-]+) *)
    lits "$(" ++ [GroupPlus word_or_dash];
    (* `([\w-]+) *)
    lits "`" ++ [GroupPlus word_or_dash] ].

(** Bash built-ins and common keywords that are filtered out. *)
Definition excluded : list string :=
  [ "if"; "then"; "else"; "fi"; "for"; "while"; "do"; "done";
    "case"; "esac"; "function"; "return"; "exit"; "echo"; "printf" ]%string.

(** The order of [sorted] on [str]: lexicographic on code points. *)
Definition str_le : relation string := String.le.
Definition str_lt (a b : string) : Prop := str_le a b /\ a <> b.

#[global] Instance str_le_dec : RelDecision str_le := String.le_dec.

(** The inner loop: every match that is not excluded is added to the set
    (a match is always a [str] here, every pattern having one group). *)
Definition add_matches (dependencies : gset string) (matches : list string)
  : gset string :=
  foldl (fun deps m => if bool_decide (m ∈ excluded) then deps else {[ m ]} ∪ deps)
        dependencies matches.

Definition collect (script_content : string) : gset string :=
  foldl (fun deps p => add_matches deps (findall p script_content))
        ∅ command_patterns.

(** [sorted(list(dependencies))] *)
Definition sorted (dependencies : gset string) : list string :=
  merge_sort str_le (elements dependencies).

Definition get_script_dependencies (script_content : string) : list string :=
  sorted (collect script_content).

End Deps.

(* ===================================================================== *)
(** * Reading the log of system calls                                   *)
(* ===================================================================== *)

Module Trace.
Import Py Sys.

Definition signal_eqb (a b : signal) : bool :=
  match a, b with
  | SIGINT, SIGINT | SIGTERM, SIGTERM | SIGKILL, SIGKILL => true
  | _, _ => false
  end.

(** [os.unlink] was called. *)
Definition is_unlink (ev : event) : bool :=
  match ev with EvUnlink _ _ => true | _ => false end.

(** A process was spawned, or the attempt was made. *)
Definition is_popen (ev : event) : bool :=
  match ev with EvPopen _ _ _ _ _ => true | _ => false end.

(** [os.killpg] was called, with any signal. *)
Definition is_killpg (ev : event) : bool :=
  match ev with EvKillpg _ _ _ => true | _ => false end.

(** [os.killpg] was called with the signal [sig]. *)
Definition sent (sig : signal) (ev : event) : bool :=
  match ev with EvKillpg _ s _ => signal_eqb s sig | _ => false end.

(** The signal [sig] was delivered: [os.killpg] returned. *)
Definition delivered (sig : signal) (ev : event) : bool :=
  match ev with
  | EvKillpg _ s (Return _) => signal_eqb s sig
  | _ => false
  end.

(** The wait for the script's output ended with [TimeoutExpired]. *)
Definition output_timed_out (ev : event) : bool :=
  match ev with
  | EvCommunicate _ _ (Raise e) => isinstance e [TimeoutExpired]
  | _ => false
  end.

(** The five seconds of grace ended with [TimeoutExpired]. *)
Definition grace_expired (ev : event) : bool :=
  match ev with
  | EvWait _ (Some t) (Raise e) => (t =? 5) && isinstance e [TimeoutExpired]
  | _ => false
  end.

(** How many events of a log satisfy [f]. *)
Definition count (f : event -> bool) (log : list event) : nat :=
  length (List.filter f log).

End Trace.

Module Faults.
Import Py Sys Controller.

Definition keyboard_interrupt : exn := mk_exn KeyboardInterrupt "".

(** The user presses Ctrl-C while the script runs. *)
Definition os_ctrl_c : OS :=
  {| os_tempfile := os_tempfile Env.os_ok;
     os_chmod := os_chmod Env.os_ok;
     os_time := os_time Env.os_ok;
     os_popen := os_popen Env.os_ok;
     os_communicate := fun _ _ _ => Raise keyboard_interrupt;
     os_getpgid := os_getpgid Env.os_ok;
     os_killpg := os_killpg Env.os_ok;
     os_wait := os_wait Env.os_ok;
     os_unlink := os_unlink Env.os_ok;
     os_run := os_run Env.os_ok |}.

Definition permission_denied : exn :=
  mk_exn PermissionError "[Errno 13] Permission denied".

(** The temporary directory does not allow changing permissions. *)
Definition os_no_chmod : OS :=
  {| os_tempfile := os_tempfile Env.os_ok;
     os_chmod := fun _ _ _ => Raise permission_denied;
     os_time := os_time Env.os_ok;
     os_popen := os_popen Env.os_ok;
     os_communicate := os_communicate Env.os_ok;
     os_getpgid := os_getpgid Env.os_ok;
     os_killpg := os_killpg Env.os_ok;
     os_wait := os_wait Env.os_ok;
     os_unlink := os_unlink Env.os_ok;
     os_run := os_run Env.os_ok |}.

(** What writing a lone surrogate to a UTF-8 file raises. *)
Definition unencodable : exn :=
  mk_exn UnicodeEncodeError
    "'utf-8' codec can't encode character '\udc80' in position 5: surrogates not allowed".

(** The script cannot be encoded, so writing the temporary file fails.
    The strings of this development stop at code point 255; the
    environment stands for the failing write. *)
Definition os_unencodable : OS :=
  {| os_tempfile := fun _ _ => Raise unencodable;
     os_chmod := os_chmod Env.os_ok;
     os_time := os_time Env.os_ok;
     os_popen := os_popen Env.os_ok;
     os_communicate := os_communicate Env.os_ok;
     os_getpgid := os_getpgid Env.os_ok;
     os_killpg := os_killpg Env.os_ok;
     os_wait := os_wait Env.os_ok;
     os_unlink := os_unlink Env.os_ok;
     os_run := os_run Env.os_ok |}.

End Faults.

Module Sessions.
Import Py Sys Controller.

(** The worlds a controller goes through from [w0], call after call. *)
Inductive calls_from (w0 : world) : world -> Prop :=
| calls_none : calls_from w0 w0
| calls_execute w os c t :
    calls_from w0 w -> calls_from w0 (snd (execute c t os w))
| calls_execute_command w os c t :
    calls_from w0 w -> calls_from w0 (snd (execute_command c t os w))
| calls_interrupt w os :
    calls_from w0 w -> calls_from w0 (snd (interrupt_execution os w))
| calls_validate w os c :
    calls_from w0 w -> calls_from w0 (snd (validate_script_syntax c os w)).

End Sessions.

Module Conduct.
Import Py Sys Controller.

(** From the spawn on, and when the script file is removed, every call
    raises only what its documentation allows. Nothing is assumed of
    creating, writing and making executable the script file. *)
Record runs_well (os : OS) : Prop := {
  rw_popen : forall h a c, raises_only [Exception] (os_popen os h a c) = true;
  rw_communicate :
    forall h p t, raises_only [Exception] (os_communicate os h p t) = true;
  rw_getpgid : forall h p, raises_only [OSError] (os_getpgid os h p) = true;
  rw_killpg : forall h g s, raises_only [OSError] (os_killpg os h g s) = true;
  rw_wait_bounded :
    forall h p t, raises_only [TimeoutExpired] (os_wait os h p (Some t)) = true;
  rw_wait : forall h p, returned (os_wait os h p None) = true;
  rw_unlink : forall h p, raises_only [OSError] (os_unlink os h p) = true
}.

(** A controller configured with the timeout 0. *)
Definition configured_zero : world :=
  {| self := __init__ (Some 0) None "/home/user"; events := [] |}.

End Conduct.

(* ===================================================================== *)
(** * Reading the matches of the dependency scan                        *)
(* ===================================================================== *)

Module Scan.
Import PyStr Deps.

(** Every character of [s] is in the class [cls]. *)
Fixpoint all_in (cls : ascii -> bool) (s : string) : bool :=
  match s with
  | EmptyString => true
  | String c s' => cls c && all_in cls s'
  end.

(** Some character of [s] is in the class [cls]. *)
Fixpoint some_in (cls : ascii -> bool) (s : string) : bool :=
  match s with
  | EmptyString => false
  | String c s' => cls c || some_in cls s'
  end.

(** [t] is a substring of [s]. *)
Definition occurs_in (t s : string) : Prop :=
  exists a b, s = String.append a (String.append t b).

(** The capturing groups of [p] are all [(cls+)]. *)
Definition groups_are (cls : ascii -> bool) (p : pattern) : Prop :=
  Forall (fun nd => match nd with GroupPlus c => c = cls | _ => True end) p.

Definition is_group (nd : node) : bool :=
  match nd with GroupPlus _ => true | _ => false end.

(** The characters a node can consume. *)
Definition consumes (nd : node) (c : ascii) : bool :=
  match nd with
  | Lit d => Ascii.eqb d c
  | WordBoundary => false
  | Plus cls | GroupPlus cls => cls c
  end.

Definition is_boundary (nd : node) : bool :=
  match nd with WordBoundary => true | _ => false end.

End Scan.

Module Shape.
Import PyStr Deps.

(** The first character of [s] is in the class [cls]. *)
Definition begins_in (cls : ascii -> bool) (s : string) : bool :=
  match s with String c _ => cls c | EmptyString => false end.

(** The last character of [s] is in the class [cls]. *)
Definition ends_in (cls : ascii -> bool) (s : string) : bool :=
  match last_char s with Some c => cls c | None => false end.

(** The character before the text that follows [s], when [prev] is the
    character before [s]. *)
Definition last_of (s : string) (prev : option ascii) : option ascii :=
  match last_char s with Some c => Some c | None => prev end.

End Shape.

(* ===================================================================== *)
(** * The command line: [BashScriptCLI] (cli.py, utils.py)              *)
(* ===================================================================== *)

Module Cli.
Import PyStr Py Sys Controller.

(** The signs the message helpers put before a message. They lie outside
    Latin-1, so each is a constructor: the sign followed by one space. *)
Inductive sign : Set :=
| CrossMark      (* U+2717 *)
| CheckMark      (* U+2713 *)
| InfoMark       (* U+2139 *)
| WarningMark.   (* U+26A0 *)

(** One [Text.append(text, style=style)]. *)
Inductive span : Type :=
| Sign (s : sign) (style : string)
| Span (text : string) (style : string).

(** A rich [Text]: what was appended to it, in order. *)
Definition Text : Type := list span.

(** utils.py *)
Definition format_error (message : string) : Text :=
  [Sign CrossMark "bold red"; Span message "red"].

Definition format_success (message : string) : Text :=
  [Sign CheckMark "bold green"; Span message "green"].

Definition format_info (message : string) : Text :=
  [Sign InfoMark "bold blue"; Span message "blue"].

Definition format_warning (message : string) : Text :=
  [Sign WarningMark "bold yellow"; Span message "yellow"].

(** What is handed to [console.print]. *)
Inductive renderable : Type :=
| RText (t : Text)
| RStr (s : string)    (* a [str], console markup included *)
| RSyntax (code lexer theme : string) (line_numbers : bool)
| RPanel (body : renderable) (title border_style : string).

(** The fields of a [BashScriptCLI] that running a script touches: the
    executor with the log of its system calls, what was printed on the
    console, and the script being edited. *)
Record cli : Type := {
  bash_executor : world;
  console : list renderable;
  current_script_name : option string;
  script_lines : list string
}.

(** The user at the terminal: the answer to a yes/no question, given what
    is on the console. *)
Definition terminal : Type := list renderable -> string -> outcome bool.

Definition C (A : Type) : Type := OS -> terminal -> cli -> outcome A * cli.

Definition cret {A} (a : A) : C A := fun _ _ st => (Return a, st).

Definition cbind {A B} (m : C A) (k : A -> C B) : C B :=
  fun os tty st =>
    match m os tty st with
    | (Return a, st') => k a os tty st'
    | (Raise e, st') => (Raise e, st')
    end.

#[local] Notation "'let*' x ':=' m 'in' k" := (cbind m (fun x => k))
  (at level 10, x name, m at level 100, k at level 200).
#[local] Notation "m >> k" := (cbind m (fun _ => k))
  (at level 100, k at level 200, right associativity).

(** [self.console.print(r)], for an [r] that the console renders: the
    renderable is added to what the console shows. A string, and the
    title of a panel, is parsed by the console for markup tags, and a
    closing tag with nothing to close makes the print raise; that is
    not modelled, and what is proved of the command line is about
    prints whose markup is well formed. *)
Definition console_print (r : renderable) : C unit :=
  fun _ _ st =>
    (Return tt,
     {| bash_executor := bash_executor st;
        console := console st ++ [r];
        current_script_name := current_script_name st;
        script_lines := script_lines st |}).

(** [confirm(message)] *)
Definition confirm (message : string) : C bool :=
  fun _ tty st => (tty (console st) message, st).

(** A method call on [self.bash_executor]. *)
Definition on_executor {A} (m : M A) : C A :=
  fun os _ st =>
    let (r, w') := m os (bash_executor st) in
    (r,
     {| bash_executor := w';
        console := console st;
        current_script_name := current_script_name st;
        script_lines := script_lines st |}).

(** [try: body  except Exception as e: handler] *)
Definition try_except_Exception {A} (body : C A) (handler : exn -> C A) : C A :=
  fun os tty st =>
    match body os tty st with
    | (Return a, st') => (Return a, st')
    | (Raise e, st') =>
        if isinstance e [Exception] then handler e os tty st'
        else (Raise e, st')
    end.

(** [s * n] *)
Fixpoint str_mul (s : string) (n : nat) : string :=
  match n with
  | O => EmptyString
  | S n' => String.append s (str_mul s n')
  end.

(** [if cond: body] *)
Definition when (cond : bool) (body : C unit) : C unit :=
  if cond then body else cret tt.

Definition _execute_script_content (content name : string) : C unit :=
  if negb (truthy (strip content))
  then console_print (RText (format_error "Script is empty."))
  else
    console_print (RText (format_info (String.append "Executing script: " name))) >>
    (* Show script content with syntax highlighting *)
    console_print
      (RPanel (RSyntax content "bash" "monokai" true)
         (String.append "Script: " name) "blue") >>
    (* Confirm execution for safety *)
    let* ok := confirm "Execute this script?" in
    if negb ok
    then console_print (RText (format_info "Execution cancelled."))
    else
      try_except_Exception
        (let* result := on_executor (execute content None) in
         (* Display results *)
         console_print (RStr (String.append nl (str_mul "=" 60))) >>
         console_print (RText (format_success "Execution completed")) >>
         when (truthy (Result.stdout result))
           (console_print (RStr (String.append nl "[bold green]Output:[/bold green]")) >>
            console_print (RStr (Result.stdout result))) >>
         when (truthy (Result.stderr result))
           (console_print (RStr (String.append nl "[bold red]Errors:[/bold red]")) >>
            console_print (RStr (Result.stderr result))) >>
         console_print
           (RStr (String.append nl
                    (String.append "[bold]Exit code:[/bold] "
                       (str_int (Result.returncode result))))) >>
         console_print (RStr (str_mul "=" 60)))
        (fun e =>
           console_print
             (RText (format_error (String.append "Execution failed: " (exn_str e))))).

(** [self.current_script_name or "current"] *)
Definition name_or_current (name : option string) : string :=
  match name with
  | Some n => if truthy n then n else "current"
  | None => "current"
  end.

Definition _run_current_script : C unit :=
  fun os tty st =>
    match script_lines st with
    | [] =>
        console_print
          (RText (format_error "No script to run. Create or load a script first."))
          os tty st
    | _ =>
        let content := join nl (script_lines st) in
        _execute_script_content content
          (name_or_current (current_script_name st)) os tty st
    end.

(** What is printed for a run that returned [result]. *)
Definition report (result : Result.ExecutionResult) : list renderable :=
  [RStr (String.append nl (str_mul "=" 60));
   RText (format_success "Execution completed")]
  ++ (if truthy (Result.stdout result)
      then [RStr (String.append nl "[bold green]Output:[/bold green]");
            RStr (Result.stdout result)]
      else [])
  ++ (if truthy (Result.stderr result)
      then [RStr (String.append nl "[bold red]Errors:[/bold red]");
            RStr (Result.stderr result)]
      else [])
  ++ [RStr (String.append nl
              (String.append "[bold]Exit code:[/bold] "
                 (str_int (Result.returncode result))));
      RStr (str_mul "=" 60)].

(** What is printed before the user is asked. *)
Definition announcement (content name : string) : list renderable :=
  [RText (format_info (String.append "Executing script: " name));
   RPanel (RSyntax content "bash" "monokai" true)
     (String.append "Script: " name) "blue"].

(** The session [st] after more was printed, with the executor in [w]. *)
Definition shows (st : cli) (w : world) (printed : list renderable) : cli :=
  {| bash_executor := w;
     console := console st ++ printed;
     current_script_name := current_script_name st;
     script_lines := script_lines st |}.

(** [s] holds no ["["]: the console finds no markup tag in it. *)
Definition markup_free (s : string) : bool :=
  negb (Scan.some_in (Ascii.eqb "[") s).

(** A terminal where the user agrees to everything. *)
Definition says_yes : terminal := fun _ _ => Return true.

(** A terminal where the user declines. *)
Definition says_no : terminal := fun _ _ => Return false.

(** A session with nothing on the console and nothing being edited. *)
Definition session (w : world) : cli :=
  {| bash_executor := w; console := [];
     current_script_name := None; script_lines := [] |}.

End Cli.

(* ===================================================================== *)
(** * Script files: [ScriptManager._get_script_path]                    *)
(* ===================================================================== *)

Module Scripts.
Import PyStr Py.

(** [str.isalnum] on one character: code points 48-57, 65-90, 97-122, 170,
    178-179, 181, 185-186, 188-190, 192-214, 216-246, 248-255. *)
Definition isalnum (c : ascii) : bool :=
  let n := ord c in
  ((48 <=? n) && (n <=? 57) || (65 <=? n) && (n <=? 90)
   || (97 <=? n) && (n <=? 122)
   || (n =? 170) || (n =? 178) || (n =? 179) || (n =? 181)
   || (n =? 185) || (n =? 186) || (188 <=? n) && (n <=? 190)
   || (192 <=? n) && (n <=? 214) || (216 <=? n) && (n <=? 246)
   || (248 <=? n) && (n <=? 255))%nat.

(** [c.isalnum() or c in "._-"] *)
Definition kept (c : ascii) : bool :=
  isalnum c || (Ascii.eqb c "." || Ascii.eqb c "_" || Ascii.eqb c "-").

(** [String.concat "" (c for c in s if f c)] *)
Fixpoint select (f : ascii -> bool) (s : string) : string :=
  match s with
  | EmptyString => EmptyString
  | String c s' => if f c then String c (select f s') else select f s'
  end.

(** [s.endswith(suffix)] *)
Fixpoint endswith (s suffix : string) : bool :=
  String.eqb s suffix ||
  match s with
  | EmptyString => false
  | String _ s' => endswith s' suffix
  end.

(** A [Path] built as [directory / name]. *)
Record Path : Type := truediv { directory : string; file_name : string }.

(** [ScriptManager._get_script_path], for a manager whose [script_dir] is
    [script_dir]. *)
Definition _get_script_path (script_dir name : string) : outcome Path :=
  (* Sanitize script name *)
  let safe_name := select kept name in
  if negb (truthy safe_name)
  then Raise (mk_exn ValueError "Invalid script name")
  else
    let safe_name :=
      if negb (endswith safe_name ".sh")
      then String.append safe_name ".sh" else safe_name in
    Return (truediv script_dir safe_name).

End Scripts.

(* ===================================================================== *)
(** * Properties of the string primitives                                 *)
(* ===================================================================== *)

Import PyStr.

#[local] Arguments String.append !s1 s2 : simpl nomatch.

Lemma append_nil_r (s : string) : s +:+ "" = s.
Proof. induction s as [|c s IH]; simpl; [reflexivity | f_equal; exact IH]. Qed.

Lemma append_assoc (a b c : string) : (a +:+ b) +:+ c = a +:+ b +:+ c.
Proof. induction a as [|x a IH]; simpl; [reflexivity | f_equal; exact IH]. Qed.

Lemma split_nonempty (sep : ascii) (s : string) :
  exists h t, split sep s = h :: t.
Proof.
  destruct s as [|c s]; simpl; [now eauto |].
  destruct (Ascii.eqb c sep); [now eauto |].
  destruct (split sep s); eauto.
Qed.

Lemma join_cons (sep x : string) (y : string) (ys : list string) :
  join sep (x :: y :: ys) = x +:+ sep +:+ join sep (y :: ys).
Proof. reflexivity. Qed.

Lemma join_split (s : string) : join nl (split LF s) = s.
Proof.
  induction s as [|c s IH]; simpl; [reflexivity |].
  destruct (Ascii.eqb c LF) eqn:E.
  - apply Ascii.eqb_eq in E. subst c.
    destruct (split_nonempty LF s) as (h & t & Hs).
    rewrite Hs in *. rewrite join_cons, IH. reflexivity.
  - destruct (split LF s) as [|h [|h' t]]; simpl in *.
    + now subst s.
    + now subst s.
    + now subst s.
Qed.

Lemma join_tl_split (s : string) :
  join nl (tl (split LF s)) = after_first_line s.
Proof.
  induction s as [|c s IH]; simpl; [reflexivity |].
  destruct (Ascii.eqb c LF).
  - apply join_split.
  - destruct (split LF s); simpl in *; assumption.
Qed.

Lemma split_app_nl (a b : string) :
  split LF (a +:+ String LF b) = split LF a ++ split LF b.
Proof.
  induction a as [|c a IH]; simpl.
  { change (Ascii.eqb LF LF) with true. reflexivity. }
  destruct (Ascii.eqb c LF); [now rewrite IH |].
  rewrite IH. destruct (split_nonempty LF a) as (h & t & Ha).
  rewrite Ha. reflexivity.
Qed.

Lemma last_char_app (p c : string) :
  c <> EmptyString -> last_char (p +:+ c) = last_char c.
Proof.
  intros Hc. induction p as [|x p IH]; simpl; [reflexivity |].
  rewrite IH. destruct (p +:+ c) eqn:E; [| reflexivity].
  destruct p; simpl in E; [contradiction | discriminate].
Qed.

Lemma rstrip_app (a b : string) :
  rstrip b <> EmptyString -> rstrip (a +:+ b) = a +:+ rstrip b.
Proof.
  intros Hb. induction a as [|x a IH]; simpl; [reflexivity |].
  rewrite IH. destruct (a +:+ rstrip b) eqn:E; [| reflexivity].
  destruct a; simpl in E; [contradiction | discriminate].
Qed.

Lemma rstrip_idem (s : string) : rstrip (rstrip s) = rstrip s.
Proof.
  induction s as [|c s IH]; simpl; [reflexivity |].
  destruct (rstrip s) as [|d r] eqn:E.
  - destruct (isspace c) eqn:Hc; simpl; [reflexivity | now rewrite Hc].
  - change (rstrip (String c (String d r))) with
      (match rstrip (String d r) with
       | EmptyString => if isspace c then EmptyString else String c EmptyString
       | String _ _ as r' => String c r'
       end).
    rewrite IH. reflexivity.
Qed.

Lemma strip_rstrip (s : string) : rstrip (strip s) = strip s.
Proof. apply rstrip_idem. Qed.

Lemma startswith_shebang_slash (s : string) :
  startswith s "#!/" = true -> startswith s "#!" = true.
Proof.
  destruct s as [|a [|b [|c s]]]; cbn [startswith];
    repeat match goal with
           | |- context [Ascii.eqb ?x ?y] => destruct (Ascii.eqb x y)
           end; cbn [andb]; try discriminate; reflexivity.
Qed.

(* ===================================================================== *)
(** * The Script Wrapper                                                  *)
(* ===================================================================== *)

Import Wrapper.

(** What the wrapper returns, in one equation. *)
Lemma prepare_script_eq (content : string) :
  _prepare_script content =
  directive +:+ nl +:+ preamble +:+
    (if startswith (strip content) "#!/"
     then after_first_line (strip content) else strip content).
Proof.
  unfold _prepare_script. rewrite join_tl_split.
  generalize (if startswith (strip content) "#!/"
              then after_first_line (strip content) else strip content).
  intros body. reflexivity.
Qed.

(** The strict-mode line and the trap are part of the preamble, once each. *)
Lemma preamble_lines :
  count_line strict_mode_line preamble = 1%nat /\
  count_line trap_line preamble = 1%nat /\
  startswith directive "#!" = true.
Proof. vm_compute. auto. Qed.

(** C3, as stated, fails: the content is not appended verbatim. For the
    content ["echo hi\n"], which has no interpreter directive, the output
    of the wrapper does not end with the content, whatever comes before. *)
Lemma prepare_not_verbatim :
  let content := "echo hi" +:+ nl in
  startswith content "#!" = false /\
  ~ exists before, _prepare_script content = before +:+ content.
Proof.
  cbv zeta. split; [reflexivity |]. intros [before H].
  apply (f_equal last_char) in H.
  rewrite last_char_app in H by discriminate.
  vm_compute in H. discriminate.
Qed.

(** C3 (amended), in two cases. For every input whose trimmed content
    does not begin with ["#!"], the wrapper returns exactly the fixed
    directive, the fixed strict-mode preamble with its cleanup trap, and
    then the content with its surrounding whitespace trimmed. For every
    input whose trimmed content begins with ["#!/"], it returns exactly
    the directive, the preamble, and then the trimmed content with its
    first line removed. A trimmed content that begins with ["#!"] but not
    with ["#!/"] is in neither case. *)
Theorem prepare_script_shape (content : string) :
  (startswith (strip content) "#!" = false ->
   _prepare_script content = directive +:+ nl +:+ preamble +:+ strip content)
  /\
  (startswith (strip content) "#!/" = true ->
   _prepare_script content =
   directive +:+ nl +:+ preamble +:+ after_first_line (strip content)).
Proof.
  split; intros H; rewrite prepare_script_eq.
  - destruct (startswith (strip content) "#!/") eqn:E; [| reflexivity].
    apply startswith_shebang_slash in E. congruence.
  - now rewrite H.
Qed.

Lemma prepare_script_shape_witness :
  _prepare_script ("  ls -l" +:+ nl) = directive +:+ nl +:+ preamble +:+ "ls -l"
  /\
  _prepare_script ("#!/bin/sh" +:+ nl +:+ "ls -l")
  = directive +:+ nl +:+ preamble +:+ "ls -l".
Proof.
  split.
  - apply (proj1 (prepare_script_shape ("  ls -l" +:+ nl))). reflexivity.
  - apply (proj2 (prepare_script_shape ("#!/bin/sh" +:+ nl +:+ "ls -l"))).
    reflexivity.
Defined.

(** C4, as stated, fails: wrapping the wrapper's own output (directive
    removed) injects the strict-mode line and the trap a second time, and
    the result differs from the first wrapping. *)
Lemma prepare_twice_doubles_preamble :
  let content := "echo hi" in
  let again := _prepare_script (prepare_body_without_directive content) in
  startswith (strip content) "#!" = false /\
  injected_once (_prepare_script content) /\
  count_line strict_mode_line again = 2%nat /\
  count_line trap_line again = 2%nat /\
  again <> _prepare_script content.
Proof.
  cbv zeta. unfold injected_once.
  repeat split; try (vm_compute; reflexivity).
  intros H. apply (f_equal String.length) in H. vm_compute in H. discriminate.
Qed.

Lemma count_line_app (line a b : string) :
  count_line line (a +:+ String LF b)
  = (count_line line a + count_line line b)%nat.
Proof.
  unfold count_line. rewrite split_app_nl, filter_app, length_app. reflexivity.
Qed.

Lemma count_line_prefix (line a b : string) :
  (count_line line a <= count_line line (a +:+ String LF b))%nat.
Proof. rewrite count_line_app. lia. Qed.

(** The body handed back to the wrapper: the preamble and the trimmed
    content. *)
Lemma prepare_body_eq (content : string) :
  startswith (strip content) "#!" = false ->
  prepare_body_without_directive content = preamble +:+ strip content.
Proof.
  intros H. unfold prepare_body_without_directive.
  rewrite prepare_script_eq.
  destruct (startswith (strip content) "#!/") eqn:E; [| reflexivity].
  apply startswith_shebang_slash in E. congruence.
Qed.

Lemma strip_preamble_app (body : string) :
  body <> EmptyString -> rstrip body = body ->
  strip (preamble +:+ body) = preamble_text +:+ body.
Proof.
  intros Hne Hr. unfold strip.
  change (lstrip (preamble +:+ body)) with (preamble_text +:+ body).
  rewrite rstrip_app; rewrite Hr; [reflexivity | assumption].
Qed.

(** C4 (amended): for every content that is non-empty after trimming and
    lacks an interpreter directive, wrapping the body the wrapper itself
    produced (its directive removed) returns the directive and the preamble
    followed by a second copy of the preamble and then the trimmed content:
    the directive is not duplicated, but the strict-mode line and the
    cleanup trap are injected a second time. *)
Theorem prepare_twice (content : string) :
  strip content <> EmptyString ->
  startswith (strip content) "#!" = false ->
  let again := _prepare_script (prepare_body_without_directive content) in
  again = directive +:+ nl +:+ preamble +:+ preamble_text +:+ strip content
  /\ (2 <= count_line strict_mode_line again)%nat
  /\ (2 <= count_line trap_line again)%nat.
Proof.
  intros Hne Hno again.
  assert (Heq : again
    = directive +:+ nl +:+ preamble +:+ preamble_text +:+ strip content).
  { unfold again. rewrite prepare_body_eq by assumption.
    rewrite prepare_script_eq.
    rewrite strip_preamble_app by (auto using strip_rstrip).
    reflexivity. }
  split; [exact Heq |]. rewrite Heq.
  pose (once := "#!/bin/bash" +:+ nl +:+ join nl (tl (tl safety_header))).
  pose (rest := "# Script content begins here" +:+ nl +:+ nl +:+ strip content).
  assert (Hsplit : directive +:+ nl +:+ preamble +:+ preamble_text +:+ strip content
    = (join nl (firstn 11 safety_header)
       +:+ String LF ("# Script content begins here" +:+ nl))
      +:+ String LF (join nl (firstn 8 (skipn 2 safety_header))
                     +:+ String LF (String LF rest))).
  { unfold rest. generalize (strip content). intros body. reflexivity. }
  rewrite Hsplit. clear once.
  split.
  - rewrite count_line_app.
    etransitivity; [| apply Nat.add_le_mono;
                      [apply count_line_prefix | apply count_line_prefix]].
    vm_compute. lia.
  - rewrite count_line_app.
    etransitivity; [| apply Nat.add_le_mono;
                      [apply count_line_prefix | apply count_line_prefix]].
    vm_compute. lia.
Qed.

Lemma prepare_twice_witness :
  _prepare_script (prepare_body_without_directive "echo hi")
  = directive +:+ nl +:+ preamble +:+ preamble_text +:+ "echo hi".
Proof.
  apply (prepare_twice "echo hi"); [discriminate | reflexivity].
Defined.

(* ===================================================================== *)
(** * Reasoning about computations                                        *)
(* ===================================================================== *)

Import Py Sys Controller.

Section post_rules.
Context {A B : Type}.
Implicit Types (os : OS) (w : world).

Lemma post_ret (a : A) os w Q : Q (Return a) w -> post (ret a) os w Q.
Proof. exact (fun H => H). Qed.

Lemma post_raise (e : exn) os w (Q : outcome A -> world -> Prop) :
  Q (Raise e) w -> post (raise e) os w Q.
Proof. exact (fun H => H). Qed.

Lemma post_bind (m : M A) (k : A -> M B) os w Q :
  post m os w
    (fun r w' =>
       match r with
       | Return a => post (k a) os w' Q
       | Raise e => Q (Raise e) w'
       end) ->
  post (bind m k) os w Q.
Proof. unfold post, bind. destruct (m os w) as [[a|e] w']; auto. Qed.

Lemma post_try_except (body : M A) (cs : list (clause A)) os w Q :
  post body os w
    (fun r w' =>
       match r with
       | Return a => Q (Return a) w'
       | Raise e =>
           match select_clause e cs with
           | Some h => post (h e) os w' Q
           | None => Q (Raise e) w'
           end
       end) ->
  post (try_except body cs) os w Q.
Proof.
  unfold post, try_except. destruct (body os w) as [[a|e] w']; simpl; auto.
  destruct (select_clause e cs); auto.
Qed.

Lemma post_try_finally (body : M A) (fin : M unit) os w Q :
  post body os w
    (fun r w' =>
       post fin os w'
         (fun rf w'' =>
            match rf with
            | Return _ => Q r w''
            | Raise e => Q (Raise e) w''
            end)) ->
  post (try_finally body fin) os w Q.
Proof.
  unfold post, try_finally. destruct (body os w) as [r w']; simpl.
  destruct (fin os w') as [[u|e] w'']; auto.
Qed.

Lemma post_syscall (ask : OS -> list event -> outcome A)
    (log : outcome A -> event) os w Q :
  Q (ask os (events w))
    {| self := self w; events := events w ++ [log (ask os (events w))] |} ->
  post (syscall ask log) os w Q.
Proof. exact (fun H => H). Qed.

Lemma post_weaken (m : M A) os w (Q Q' : outcome A -> world -> Prop) :
  (forall r w', Q r w' -> Q' r w') -> post m os w Q -> post m os w Q'.
Proof. unfold post. auto. Qed.


End post_rules.

Lemma post_get_self os w Q : Q (Return (self w)) w -> post get_self os w Q.
Proof. exact (fun H => H). Qed.

Lemma post_set_current_process p os w (Q : outcome unit -> world -> Prop) :
  Q (Return tt)
    {| self := {| timeout := timeout (self w);
                  working_dir := working_dir (self w);
                  current_process := p |};
       events := events w |} ->
  post (set_current_process p) os w Q.
Proof. exact (fun H => H). Qed.

Lemma post_current_process_obj os w Q :
  match current_process (self w) with
  | Some p => Q (Return p) w
  | None =>
      Q (Raise (mk_exn AttributeError "'NoneType' object has no attribute")) w
  end ->
  post current_process_obj os w Q.
Proof.
  unfold post, current_process_obj.
  destruct (current_process (self w)); auto.
Qed.

Lemma post_time_time os w Q :
  Q (Return (os_time os (events w)))
    {| self := self w;
       events := events w ++ [EvTime (os_time os (events w))] |} ->
  post time_time os w Q.
Proof. exact (fun H => H). Qed.

(** One step of symbolic execution. *)
Ltac wp_step :=
  lazymatch goal with
  | |- post (bind _ _) _ _ _ => apply post_bind
  | |- post (try_except _ _) _ _ _ => apply post_try_except
  | |- post (try_finally _ _) _ _ _ => apply post_try_finally
  | |- post (ret _) _ _ _ => apply post_ret
  | |- post pass _ _ _ => apply post_ret
  | |- post (raise _) _ _ _ => apply post_raise
  | |- post get_self _ _ _ => apply post_get_self
  | |- post (set_current_process _) _ _ _ => apply post_set_current_process
  | |- post current_process_obj _ _ _ => apply post_current_process_obj
  | |- post time_time _ _ _ => apply post_time_time
  | |- post (syscall _ _) _ _ _ => apply post_syscall
  | |- post (NamedTemporaryFile_write _) _ _ _ => apply post_syscall
  | |- post (os_chmod_ _ _) _ _ _ => apply post_syscall
  | |- post (Popen _ _ _) _ _ _ => apply post_syscall
  | |- post (communicate _ _) _ _ _ => apply post_syscall
  | |- post (getpgid _) _ _ _ => apply post_syscall
  | |- post (killpg _ _) _ _ _ => apply post_syscall
  | |- post (wait _ _) _ _ _ => apply post_syscall
  | |- post (unlink _) _ _ _ => apply post_syscall
  | |- post (subprocess_run _ _) _ _ _ => apply post_syscall
  | |- post (remove_temp_file _) _ _ _ => unfold remove_temp_file
  end.

Ltac wp := repeat (wp_step; cbn beta iota).

(** Read a goal about the outcome and the final world of [m] as a
    postcondition. *)
Ltac as_post m os w :=
  pattern (fst (m os w)), (snd (m os w));
  lazymatch goal with
  | |- ?Q _ _ => change (post m os w Q)
  end.

(** Case analysis on the first [except] clause that is tried. *)
Ltac pick_clause :=
  cbn [select_clause];
  lazymatch goal with
  | |- context [isinstance ?e ?cs] => destruct (isinstance e cs) eqn:?
  end.

(** Symbolic execution along every path, for an arbitrary environment:
    each answer of the operating system is split into return and raise,
    and each [except] clause into taken and not taken. *)
Ltac wp_any :=
  repeat first
    [ wp_step; cbn beta iota
    | progress cbn [self events fst snd select_clause current_process]
    | match goal with
      | H : current_process (self ?w) = _
        |- context [current_process (self ?w)] => rewrite H
      | |- match ?x with Return _ => _ | Raise _ => _ end =>
          destruct x as [?|?] eqn:?
      | |- context [if isinstance ?e ?cs then _ else _] =>
          destruct (isinstance e cs) eqn:?
      | |- context [if ?n =? 0 then _ else _] => destruct (n =? 0) eqn:?
      end ].

(** ** Properties of the string tests used by the controller *)

Lemma lstrip_empty_iff (s : string) :
  lstrip s = EmptyString <-> whitespace_only s = true.
Proof.
  induction s as [|c s IH]; simpl; [tauto |].
  destruct (isspace c); simpl; [exact IH |]. split; discriminate.
Qed.

Lemma rstrip_empty_lstrip (s : string) :
  rstrip (lstrip s) = EmptyString <-> lstrip s = EmptyString.
Proof.
  split; intros H; [| now rewrite H].
  induction s as [|c s IH]; simpl in *; [reflexivity |].
  destruct (isspace c) eqn:Hc; [auto |].
  simpl in H. destruct (rstrip s); [rewrite Hc in H |]; discriminate.
Qed.

Lemma strip_empty_iff (s : string) :
  strip s = EmptyString <-> whitespace_only s = true.
Proof. unfold strip. rewrite rstrip_empty_lstrip. apply lstrip_empty_iff. Qed.

Lemma truthy_strip (s : string) :
  truthy (strip s) = negb (whitespace_only s).
Proof.
  destruct (whitespace_only s) eqn:E.
  - apply strip_empty_iff in E. now rewrite E.
  - destruct (strip s) eqn:Es; [| reflexivity].
    apply strip_empty_iff in Es. congruence.
Qed.

(* ===================================================================== *)
(** * The Execution Controller                                            *)
(* ===================================================================== *)

(** C2: for every content that is empty or whitespace only, [execute] (and
    [execute_command], which delegates to it) raises the input-validation
    error at once: no result is produced, and the world is untouched, so
    no temporary file was created and no subprocess was spawned. *)
Theorem execute_rejects_blank (content : string) (t : option Z)
    (os : OS) (w : world) :
  whitespace_only content = true ->
  execute content t os w
  = (Raise (mk_exn ValueError "Script content cannot be empty"), w)
  /\ execute_command content t os w = execute content t os w
  /\ new_events (execute content t) os w = [].
Proof.
  intros H.
  assert (E : execute content t os w
              = (Raise (mk_exn ValueError "Script content cannot be empty"), w)).
  { unfold execute. rewrite truthy_strip, H. reflexivity. }
  split; [exact E | split; [reflexivity |]].
  unfold new_events. rewrite E. simpl. apply drop_all.
Qed.

Lemma execute_rejects_blank_witness :
  execute "   " None Env.os_ok Env.fresh
  = (Raise (mk_exn ValueError "Script content cannot be empty"), Env.fresh)
  /\ execute "" (Some 5) Env.os_ok Env.busy
     = (Raise (mk_exn ValueError "Script content cannot be empty"), Env.busy).
Proof.
  split.
  - apply (execute_rejects_blank "   " None Env.os_ok Env.fresh). reflexivity.
  - apply (execute_rejects_blank "" (Some 5) Env.os_ok Env.busy). reflexivity.
Defined.

(** ** The process handle *)

Lemma try_finally_clears {A} (body : M A) os w :
  handle_clear (snd (try_finally body (set_current_process None) os w)).
Proof.
  unfold try_finally, set_current_process.
  destruct (body os w) as [r w']. reflexivity.
Qed.

Lemma try_finally_self {A} (body : M A) (fin : M unit)
    (P : BashExecutor -> Prop) os w :
  (forall w', self (snd (fin os w')) = self w') ->
  P (self (snd (body os w))) ->
  P (self (snd (try_finally body fin os w))).
Proof.
  intros Hfin Hbody. unfold try_finally.
  destruct (body os w) as [r w']. simpl in Hbody.
  specialize (Hfin w'). destruct (fin os w') as [[u|e] w''];
    simpl in *; now rewrite Hfin.
Qed.

Lemma run_script_clears_handle (path : string) (t : Z) os w :
  handle_clear (snd (_run_script path t os w)).
Proof.
  unfold _run_script, bind at 1, time_time. apply try_finally_clears.
Qed.

Lemma remove_temp_file_self (path : string) os w :
  self (snd (remove_temp_file path os w)) = self w.
Proof.
  change (post (remove_temp_file path) os w (fun _ w' => self w' = self w)).
  wp_any; reflexivity.
Qed.

Lemma execute_keeps_handle_clear (content : string) (t : option Z) os w :
  handle_clear w -> handle_clear (snd (execute content t os w)).
Proof.
  intros Hw. unfold execute.
  destruct (negb (truthy (strip content))); [exact Hw |].
  unfold bind at 1, get_self. unfold bind at 1, NamedTemporaryFile_write, syscall.
  destruct (os_tempfile os (events w) (_prepare_script content)) as [path|e];
    [| exact Hw].
  apply (try_finally_self _ _ (fun s => current_process s = None)).
  - intros w'. apply remove_temp_file_self.
  - unfold bind at 1, os_chmod_, syscall.
    destruct (os_chmod os _ path 493); [| exact Hw].
    apply run_script_clears_handle.
Qed.

Lemma interrupt_keeps_self os w :
  self (snd (interrupt_execution os w)) = self w.
Proof.
  change (post interrupt_execution os w (fun _ w' => self w' = self w)).
  unfold interrupt_execution. wp.
  destruct (current_process (self w)) as [p|] eqn:Hp; wp_any; reflexivity.
Qed.

Lemma validate_keeps_self (content : string) os w :
  self (snd (validate_script_syntax content os w)) = self w.
Proof.
  unfold validate_script_syntax.
  destruct (negb (truthy (strip content))); [reflexivity |].
  unfold bind at 1, NamedTemporaryFile_write, syscall.
  destruct (os_tempfile os (events w) content) as [path|e]; [| reflexivity].
  apply (try_finally_self _ _ (fun s => s = self w)).
  - intros w'. apply remove_temp_file_self.
  - match goal with
    | |- self (snd (?m ?os ?w0)) = _ =>
        change (post m os w0 (fun _ w' => self w' = self w))
    end.
    wp_any; reflexivity.
Qed.

(** C5: the handle is [None] when [_run_script] ends, whatever happened in
    it and whatever it started from (return, timeout, or an exception that
    escapes), because the [finally] clause always runs; so in every world
    the controller can be in between two calls, the handle is [None]. *)
Theorem handle_cleared_on_every_path :
  (forall path t os w, handle_clear (snd (_run_script path t os w))) /\
  (forall content t os w,
      handle_clear w -> handle_clear (snd (execute content t os w))) /\
  (forall w, reachable w -> handle_clear w).
Proof.
  split; [exact run_script_clears_handle |].
  split; [exact execute_keeps_handle_clear |].
  induction 1 as [t wd cwd | w os c t _ IH | w os c t _ IH
                  | w os _ IH | w os c _ IH].
  - reflexivity.
  - now apply execute_keeps_handle_clear.
  - now apply execute_keeps_handle_clear.
  - unfold handle_clear in *. now rewrite interrupt_keeps_self.
  - unfold handle_clear in *. now rewrite validate_keeps_self.
Qed.

Lemma handle_cleared_witness :
  handle_clear (snd (execute "sleep 100" (Some 1) Env.os_slow Env.fresh)).
Proof.
  apply (proj2 (proj2 handle_cleared_on_every_path)).
  apply reach_execute. apply reach_init.
Defined.

(** ** Interruption *)

(** C7: when no process is running under the controller, [interrupt]
    returns without raising and leaves the world as it was (no signal is
    sent, the handle is untouched); and when a process is recorded, a
    failure of the operating system to find it or to signal it is
    swallowed: the call still returns and the controller is unchanged. *)
Theorem interrupt_noop_when_idle :
  (forall os w, handle_clear w -> interrupt_execution os w = (Return tt, w)) /\
  (forall os w p,
      current_process (self w) = Some p ->
      raises_only [OSError; ProcessLookupError]
        (os_getpgid os (events w) p) = true ->
      (forall h g,
          raises_only [OSError; ProcessLookupError]
            (os_killpg os h g SIGINT) = true) ->
      fst (interrupt_execution os w) = Return tt /\
      self (snd (interrupt_execution os w)) = self w).
Proof.
  split.
  - intros os w Hw. unfold interrupt_execution, bind, get_self.
    unfold handle_clear in Hw. rewrite Hw. reflexivity.
  - intros os w p Hp Hg Hk.
    split; [| apply interrupt_keeps_self].
    change (post interrupt_execution os w (fun r _ => r = Return tt)).
    unfold interrupt_execution. wp. rewrite Hp. wp. rewrite Hp. wp.
    destruct (os_getpgid os (events w) p) as [g|e]; cbn beta iota.
    + wp.
      match goal with
      | |- match os_killpg ?os ?h ?g ?s with _ => _ end =>
          specialize (Hk h g); destruct (os_killpg os h g s) as [[]|e]
      end; [reflexivity |].
      cbn [raises_only] in Hk. cbn [select_clause]. rewrite Hk.
      wp. reflexivity.
    + cbn [raises_only] in Hg. cbn [select_clause]. rewrite Hg.
      wp. reflexivity.
Qed.

Lemma interrupt_noop_when_idle_witness :
  interrupt_execution Env.os_ok Env.fresh = (Return tt, Env.fresh) /\
  fst (interrupt_execution Env.os_gone Env.busy) = Return tt /\
  self (snd (interrupt_execution Env.os_gone Env.busy)) = self Env.busy.
Proof.
  split.
  - apply (proj1 interrupt_noop_when_idle). reflexivity.
  - apply (proj2 interrupt_noop_when_idle Env.os_gone Env.busy 77);
      [reflexivity | reflexivity | intros h g; reflexivity].
Defined.

(** ** The effective timeout *)

Lemma timeout_or_self (d : Z) : timeout_or (Some d) d = d.
Proof. unfold timeout_or. destruct (d =? 0); reflexivity. Qed.

Lemma new_events_post {A} (m : M A) (P : event -> Prop) os w :
  post m os w
    (fun _ w' => exists l, events w' = events w ++ l /\ Forall P l) ->
  Forall P (new_events m os w).
Proof.
  unfold post, new_events. intros (l & -> & Hl).
  now rewrite drop_app_length.
Qed.

(** Closing a path: the events added are those listed, none of them is a
    zero-second wait. *)
Ltac close_path :=
  eexists; split;
  [ rewrite <- ?app_assoc; reflexivity
  | repeat constructor;
    let p := fresh in let r := fresh in let E := fresh in
    intros (p & r & E); inversion E; congruence ].

Lemma execute_never_waits_zero (content : string) (t : option Z) os w :
  timeout (self w) <> 0 ->
  Forall (fun ev => ~ zero_second_wait ev) (new_events (execute content t) os w).
Proof.
  intros Hd. apply new_events_post.
  assert (Ht : timeout_or t (timeout (self w)) <> 0).
  { unfold timeout_or. destruct t as [n|]; [| exact Hd].
    destruct (n =? 0) eqn:E; [exact Hd |]. now apply Z.eqb_neq. }
  unfold execute. destruct (negb (truthy (strip content))).
  { wp. exists []. split; [now rewrite app_nil_r | constructor]. }
  wp. generalize dependent (timeout_or t (timeout (self w))). intros T HT.
  unfold _run_script, kill_process_group.
  wp_any; close_path.
Qed.

(** With the timeout 0 the script is given the configured 30 seconds. *)
Example execute_zero_timeout_runs_with_default :
  In (EvCommunicate 4242 30 (Raise Env.timeout_expired))
     (events (snd (execute "sleep 100" (Some 0) Env.os_slow Env.fresh))).
Proof. vm_compute. tauto. Qed.

(* ===================================================================== *)
(** * The Process Runner                                                  *)
(* ===================================================================== *)

(** Evaluating [isinstance] and the choice of an [except] clause on an
    exception whose class is known. *)
Ltac eval_clause :=
  cbn [select_clause isinstance existsb issubclass mro exn_cls
       exn_class_eqb orb raises_only returned] in *.

(** Case analysis on an answer of a well-behaved operating system: the
    call returns, or raises an exception of one of the classes it may. *)
Ltac wb_answer Hwb :=
  lazymatch goal with
  | |- match os_getpgid ?os ?h ?p with _ => _ end =>
      let H := fresh in
      pose proof (wb_getpgid os Hwb h p) as H;
      destruct (os_getpgid os h p) as [?|[[] ?]];
      eval_clause; try discriminate H; clear H
  | |- match os_killpg ?os ?h ?g ?s with _ => _ end =>
      let H := fresh in
      pose proof (wb_killpg os Hwb h g s) as H;
      destruct (os_killpg os h g s) as [[]|[[] ?]];
      eval_clause; try discriminate H; clear H
  | |- match os_wait ?os ?h ?p (Some ?t) with _ => _ end =>
      let H := fresh in
      pose proof (wb_wait_bounded os Hwb h p t) as H;
      destruct (os_wait os h p (Some t)) as [?|[[] ?]];
      eval_clause; try discriminate H; clear H
  | |- match os_wait ?os ?h ?p None with _ => _ end =>
      let H := fresh in
      pose proof (wb_wait os Hwb h p) as H;
      destruct (os_wait os h p None) as [?|?];
      eval_clause; try discriminate H; clear H
  | |- match os_unlink ?os ?h ?p with _ => _ end =>
      let H := fresh in
      pose proof (wb_unlink os Hwb h p) as H;
      destruct (os_unlink os h p) as [[]|[[] ?]];
      eval_clause; try discriminate H; clear H
  | |- match os_popen ?os ?h ?a ?c with _ => _ end =>
      let H := fresh in
      pose proof (wb_popen os Hwb h a c) as H;
      destruct (os_popen os h a c) as [?|[[] ?]];
      eval_clause; try discriminate H; clear H
  | |- match os_communicate ?os ?h ?p ?t with _ => _ end =>
      let H := fresh in
      pose proof (wb_communicate os Hwb h p t) as H;
      destruct (os_communicate os h p t) as [[[? ?] ?]|[[] ?]];
      eval_clause; try discriminate H; clear H
  | |- match os_run ?os ?h ?a ?t with _ => _ end =>
      let H := fresh in
      pose proof (wb_run os Hwb h a t) as H;
      destruct (os_run os h a t) as [[[? ?] ?]|[[] ?]];
      eval_clause; try discriminate H; clear H
  end.

Ltac wp_wb Hwb :=
  repeat first
    [ wp_step; cbn beta iota
    | progress cbn [self events fst snd current_process]
    | match goal with
      | H : current_process (self ?w) = _
        |- context [current_process (self ?w)] => rewrite H
      end
    | wb_answer Hwb ].









(** The same run, step by step: SIGTERM, five seconds of grace, SIGKILL. *)
Example execute_sleep_100 :
  execute "sleep 100" (Some 1) Env.os_slow Env.fresh
  = (Return (timed_out_result 1 9),
     {| self := {| timeout := 30; working_dir := "/home/user";
                   current_process := None |};
        events :=
          [EvTempFile (_prepare_script "sleep 100") (Return "/tmp/tmp1a2b3c.sh");
           EvChmod "/tmp/tmp1a2b3c.sh" 493 (Return tt);
           EvTime 2;
           EvPopen ["/bin/bash"; "/tmp/tmp1a2b3c.sh"]%string "/home/user"
             "/dev/null" true (Return 4242);
           EvCommunicate 4242 1 (Raise Env.timeout_expired);
           EvGetpgid 4242 (Return 4242);
           EvKillpg 4242 SIGTERM (Return tt);
           EvWait 4242 (Some 5) (Raise Env.timeout_expired);
           EvGetpgid 4242 (Return 4242);
           EvKillpg 4242 SIGKILL (Return tt);
           EvWait 4242 None (Return (-9));
           EvTime 11;
           EvUnlink "/tmp/tmp1a2b3c.sh" (Return tt)] |}).
Proof. vm_compute. reflexivity. Qed.

(** ** Failures are returned, not raised *)

(** C6, as stated, fails: on a system where every call raises only what
    it documents, [execute] raises for content that is not blank when the
    temporary script file cannot be made executable. The [PermissionError]
    of [os.chmod] reaches the caller: it is raised outside the [try] of
    [_run_script], and [execute] has a [finally] but no [except]. *)
Lemma execute_raises_when_chmod_fails :
  well_behaved Faults.os_no_chmod
  /\ whitespace_only "echo hi" = false
  /\ fst (execute "echo hi" None Faults.os_no_chmod Env.fresh)
     = Raise Faults.permission_denied.
Proof.
  split; [constructor; intros; reflexivity |]. split; reflexivity.
Qed.

(** C6 (amended): on a system where every call raises only what it
    documents, for content that is not blank, once the temporary script
    file has been written and made executable, [execute] returns a
    result whatever happens next: a spawn failure, a timeout, a failure
    while reading the output, a non-zero exit, a signal that cannot be
    delivered or a temporary file that cannot be removed. A spawn
    failure [e] gives exit code -1, no output, the message
    "Execution error: " followed by the description of [e], and the
    timed-out flag unset; a script that exits gives its exit status and
    its output. *)
Theorem execute_returns_failures :
  (forall content t os w,
      whitespace_only content = false -> well_behaved os -> prepares os ->
      exists r w', execute content t os w = (Return r, w')) /\
  (forall content t os w e,
      whitespace_only content = false -> well_behaved os -> prepares os ->
      spawn_fails os e ->
      exists d w',
        execute content t os w = (Return (spawn_failed_result e d), w')) /\
  (forall content t os w out err rc,
      whitespace_only content = false -> well_behaved os -> prepares os ->
      spawns os ->
      (forall h p T, os_communicate os h p T = Return (out, err, rc)) ->
      exists d w',
        execute content t os w
        = (Return {| Result.returncode := rc; Result.stdout := out;
                     Result.stderr := err; Result.execution_time := d;
                     Result.timeout := false |}, w')).
Proof.
  split; [| split].
  - intros content t os w Hblank Hwb [Htmp Hch].
    enough (H : post (execute content t) os w
                  (fun r w' => exists r0 w0, (r, w') = (Return r0, w0))).
    { unfold post in H. now rewrite <- surjective_pairing in H. }
    unfold execute. rewrite truthy_strip, Hblank. cbn [negb]. wp.
    match goal with
    | |- match os_tempfile ?os ?h ?c with _ => _ end =>
        specialize (Htmp h c); destruct (os_tempfile os h c) as [path|];
        [clear Htmp | discriminate Htmp]
    end.
    wp. cbn [self events].
    match goal with
    | |- match os_chmod ?os ?h ?p ?m with _ => _ end =>
        specialize (Hch h p m); destruct (os_chmod os h p m) as [[]|];
        [clear Hch | discriminate Hch]
    end.
    unfold _run_script, kill_process_group.
    wp_wb Hwb; do 2 eexists; reflexivity.
  - intros content t os w e Hblank Hwb [Htmp Hch] Hfail.
    enough (H : post (execute content t) os w
                  (fun r w' =>
                     exists d w0,
                       (r, w') = (Return (spawn_failed_result e d), w0))).
    { unfold post in H. now rewrite <- surjective_pairing in H. }
    unfold execute. rewrite truthy_strip, Hblank. cbn [negb]. wp.
    match goal with
    | |- match os_tempfile ?os ?h ?c with _ => _ end =>
        specialize (Htmp h c); destruct (os_tempfile os h c) as [path|];
        [clear Htmp | discriminate Htmp]
    end.
    wp. cbn [self events].
    match goal with
    | |- match os_chmod ?os ?h ?p ?m with _ => _ end =>
        specialize (Hch h p m); destruct (os_chmod os h p m) as [[]|];
        [clear Hch | discriminate Hch]
    end.
    unfold _run_script. wp. cbn [self events].
    match goal with
    | |- match os_popen ?os ?h ?a ?c with _ => _ end =>
        pose proof (wb_popen os Hwb h a c) as Hexc;
        rewrite (Hfail h a c) in *
    end.
    cbn [raises_only] in Hexc. cbn [select_clause]. rewrite Hexc.
    wp_wb Hwb; do 2 eexists; reflexivity.
  - intros content t os w out err rc Hblank Hwb [Htmp Hch] Hsp Hcomm.
    enough (H : post (execute content t) os w
                  (fun r w' =>
                     exists d w0,
                       (r, w')
                       = (Return {| Result.returncode := rc;
                                    Result.stdout := out;
                                    Result.stderr := err;
                                    Result.execution_time := d;
                                    Result.timeout := false |}, w0))).
    { unfold post in H. now rewrite <- surjective_pairing in H. }
    unfold execute. rewrite truthy_strip, Hblank. cbn [negb]. wp.
    match goal with
    | |- match os_tempfile ?os ?h ?c with _ => _ end =>
        specialize (Htmp h c); destruct (os_tempfile os h c) as [path|];
        [clear Htmp | discriminate Htmp]
    end.
    wp. cbn [self events].
    match goal with
    | |- match os_chmod ?os ?h ?p ?m with _ => _ end =>
        specialize (Hch h p m); destruct (os_chmod os h p m) as [[]|];
        [clear Hch | discriminate Hch]
    end.
    unfold _run_script. wp. cbn [self events].
    match goal with
    | |- match os_popen ?os ?h ?a ?c with _ => _ end =>
        specialize (Hsp h a c); destruct (os_popen os h a c) as [pid|];
        [clear Hsp | discriminate Hsp]
    end.
    wp. cbn [self events current_process]. wp.
    rewrite Hcomm.
    wp_wb Hwb; do 2 eexists; reflexivity.
Qed.

Lemma os_no_bash_well_behaved : well_behaved Env.os_no_bash.
Proof. constructor; intros; reflexivity. Qed.

Lemma execute_returns_failures_witness :
  exists d w',
    execute "echo hi" None Env.os_no_bash Env.fresh
    = (Return (spawn_failed_result Env.no_such_file d), w').
Proof.
  apply (proj1 (proj2 execute_returns_failures)
           "echo hi" None Env.os_no_bash Env.fresh Env.no_such_file).
  - reflexivity.
  - exact os_no_bash_well_behaved.
  - split; intros; reflexivity.
  - intros h a c. reflexivity.
Defined.

(** Outside the failure modes above: when the temporary file cannot be
    created, the error of the operating system leaves [execute]. *)
Lemma execute_tempfile_failure_propagates (content : string) (t : option Z)
    os w (e : exn) :
  whitespace_only content = false ->
  os_tempfile os (events w) (_prepare_script content) = Raise e ->
  fst (execute content t os w) = Raise e.
Proof.
  intros Hblank He. unfold execute. rewrite truthy_strip, Hblank.
  cbn [negb]. unfold bind at 1, get_self.
  unfold bind at 1, NamedTemporaryFile_write, syscall. now rewrite He.
Qed.

(* ===================================================================== *)
(** * The syntax check                                                    *)
(* ===================================================================== *)

(** C8, as stated, fails on blank content: nothing is written and the
    interpreter is not invoked. *)
Lemma validate_blank_touches_nothing :
  validate_script_syntax "   " Env.os_ok Env.fresh
  = (Return (false, "Script content is empty"%string), Env.fresh)
  /\ ~ (exists r,
          In (EvTempFile "   " r)
             (events (snd (validate_script_syntax "   " Env.os_ok Env.fresh)))).
Proof.
  split; [reflexivity |]. intros [r H]. vm_compute in H. exact H.
Qed.

Lemma append_nonempty (a b : string) :
  a <> EmptyString -> a +:+ b <> EmptyString.
Proof. destruct a; [congruence | discriminate]. Qed.

Lemma str_or_nonempty (a b : string) :
  b <> EmptyString -> str_or a b <> EmptyString.
Proof. unfold str_or. destruct a; simpl; [auto | discriminate]. Qed.

(** C8 (amended), in three cases. On blank content the check answers at
    once with [(False, "Script content is empty")] and touches nothing.
    On any other content the first thing it does is to write the content,
    as it is (no preamble), to a temporary file. When that has been done
    (the file is created, written and closed), exactly two more things
    happen, on every path: the interpreter is run on the file in
    parse-only mode ([-n]) with a timeout of 10 seconds, and the removal
    of the file is attempted, once, also when the check raised; if
    moreover the check raises nothing but an Exception and the removal
    nothing but an OSError, the answer is valid exactly when the
    interpreter exited with status zero, and an invalid answer comes
    with a non-empty message. When creating, writing or closing the file
    raises, that exception leaves the check: the interpreter is not run
    and no removal is attempted. *)
Theorem validate_syntax_checks :
  (forall content os w,
      whitespace_only content = true ->
      validate_script_syntax content os w
      = (Return (false, "Script content is empty"%string), w)) /\
  (forall content os w path,
      whitespace_only content = false ->
      os_tempfile os (events w) content = Return path ->
      let h1 := events w ++ [EvTempFile content (Return path)] in
      let answer := os_run os h1 ["/bin/bash"; "-n"; path]%string 10 in
      let h2 := h1 ++ [EvRun ["/bin/bash"; "-n"; path]%string 10 answer] in
      let removal := os_unlink os h2 path in
      events (snd (validate_script_syntax content os w))
      = h2 ++ [EvUnlink path removal]
      /\ (raises_only [Exception] answer = true ->
          raises_only [OSError] removal = true ->
          exists valid msg,
            fst (validate_script_syntax content os w) = Return (valid, msg)
            /\ (valid = true <-> exists out err, answer = Return (0, out, err))
            /\ (valid = false -> msg <> EmptyString))) /\
  (forall content os w e,
      whitespace_only content = false ->
      os_tempfile os (events w) content = Raise e ->
      validate_script_syntax content os w
      = (Raise e,
         {| self := self w;
            events := events w ++ [EvTempFile content (Raise e)] |})).
Proof.
  split; [| split].
  - intros content os w Hblank. unfold validate_script_syntax.
    rewrite truthy_strip, Hblank. reflexivity.
  - intros content os w path Hblank Htmp. cbv zeta.
    as_post (validate_script_syntax content) os w.
    unfold validate_script_syntax. rewrite truthy_strip, Hblank.
    cbn [negb]. wp. rewrite Htmp. wp. cbn [self events].
    destruct (os_run os (events w ++ [EvTempFile content (Return path)])
                ["/bin/bash"; "-n"; path]%string 10)
      as [[[rc out] err]|e] eqn:Hrun.
    + cbn [fst snd]. destruct (rc =? 0) eqn:Hrc; wp; cbn [self events];
        (destruct (os_unlink os _ path) as [[]|e'] eqn:Hrm;
         [| pick_clause]; wp;
         (split; [rewrite <- ?app_assoc; reflexivity |]);
         intros _ Hrem; cbn [raises_only] in Hrem; try congruence).
      * apply Z.eqb_eq in Hrc. subst rc.
        exists true, "Syntax is valid"%string.
        repeat split; eauto; discriminate.
      * apply Z.eqb_eq in Hrc. subst rc.
        exists true, "Syntax is valid"%string.
        repeat split; eauto; discriminate.
      * apply Z.eqb_neq in Hrc. eexists false, _.
        split; [reflexivity |]. split.
        -- split; [discriminate | intros (o & e0 & E); congruence].
        -- intros _. apply str_or_nonempty. discriminate.
      * apply Z.eqb_neq in Hrc. eexists false, _.
        split; [reflexivity |]. split.
        -- split; [discriminate | intros (o & e0 & E); congruence].
        -- intros _. apply str_or_nonempty. discriminate.
    + pick_clause; wp; cbn [self events]; [| pick_clause; wp; cbn [self events]];
        (destruct (os_unlink os _ path) as [[]|e'] eqn:Hrm;
         [| pick_clause]; wp;
         (split; [rewrite <- ?app_assoc; reflexivity |]);
         intros Hans Hrem; cbn [raises_only] in Hans, Hrem; try congruence);
        (eexists false, _; split; [reflexivity |]; split;
         [split; [discriminate | intros (o & e0 & E); discriminate]
         | intros _; discriminate]).
  - intros content os w e Hblank Htmp. unfold validate_script_syntax.
    rewrite truthy_strip, Hblank. cbn [negb].
    unfold bind at 1, NamedTemporaryFile_write, syscall.
    rewrite Htmp. reflexivity.
Qed.

Lemma validate_syntax_checks_witness :
  events (snd (validate_script_syntax "echo 'unterminated"
                 Env.os_syntax_error Env.fresh))
  = [EvTempFile "echo 'unterminated" (Return "/tmp/tmp1a2b3c.sh"%string);
     EvRun ["/bin/bash"; "-n"; "/tmp/tmp1a2b3c.sh"]%string 10
       (os_run Env.os_syntax_error [] [] 10);
     EvUnlink "/tmp/tmp1a2b3c.sh" (Return tt)].
Proof.
  apply (proj1 (proj1 (proj2 validate_syntax_checks) "echo 'unterminated"
                  Env.os_syntax_error Env.fresh "/tmp/tmp1a2b3c.sh"
                  eq_refl eq_refl)).
Defined.

(** The two scenarios of the specification. *)
Example validate_unterminated_quote :
  fst (validate_script_syntax "echo 'unterminated"
         Env.os_syntax_error Env.fresh)
  = Return (false,
            "line 1: unexpected EOF while looking for matching `''"%string).
Proof. vm_compute. reflexivity. Qed.

Example validate_echo_hello :
  fst (validate_script_syntax "echo hello" Env.os_ok Env.fresh)
  = Return (true, "Syntax is valid"%string).
Proof. vm_compute. reflexivity. Qed.

(* ===================================================================== *)
(** * The dependency scan                                                 *)
(* ===================================================================== *)

Import Deps.

Lemma elem_of_add_matches (x : string) (ms : list string) (deps : gset string) :
  x ∈ add_matches deps ms <-> x ∈ deps \/ (x ∈ ms /\ x ∉ excluded).
Proof.
  unfold add_matches. revert deps.
  induction ms as [|m ms IH]; intros deps; simpl.
  - split; [auto | intros [H | [H _]]; [exact H | inversion H]].
  - rewrite IH. case_bool_decide as Hm.
    + rewrite elem_of_cons. split.
      * intros [H | [H1 H2]]; auto.
      * intros [H | [[-> | H1] H2]]; auto. contradiction.
    + rewrite elem_of_union, elem_of_singleton, elem_of_cons. split.
      * intros [[-> | H] | [H1 H2]]; auto.
      * intros [H | [[-> | H1] H2]]; auto.
Qed.

Lemma elem_of_collect_from (x content : string) (ps : list pattern)
    (deps : gset string) :
  x ∈ foldl (fun deps p => add_matches deps (findall p content)) deps ps
  <-> x ∈ deps \/ ((exists p, p ∈ ps /\ x ∈ findall p content) /\ x ∉ excluded).
Proof.
  revert deps. induction ps as [|p ps IH]; intros deps; simpl.
  - split; [auto | intros [H | [(p & H & _) _]]; [exact H | inversion H]].
  - rewrite IH, elem_of_add_matches. split.
    + intros [[H | [H1 H2]] | [(q & Hq & Hx) H2]]; auto.
      * right. split; [| exact H2]. exists p. split; [left | exact H1].
      * right. split; [| exact H2]. exists q. split; [now right | exact Hx].
    + intros [H | [(q & Hq & Hx) H2]]; auto.
      apply elem_of_cons in Hq as [-> | Hq]; [auto |].
      right. split; [| exact H2]. exists q. auto.
Qed.

Lemma elem_of_collect (x content : string) :
  x ∈ collect content
  <-> (exists p, p ∈ command_patterns /\ x ∈ findall p content)
      /\ x ∉ excluded.
Proof.
  unfold collect. rewrite elem_of_collect_from. split; [| auto].
  intros [H | H]; [| exact H]. now apply not_elem_of_empty in H.
Qed.

Lemma sorted_strictly (l : list string) :
  StronglySorted str_le l -> NoDup l -> StronglySorted str_lt l.
Proof.
  induction 1 as [|x l Hl IH Hx]; intros Hnd; constructor.
  - apply IH. now apply NoDup_cons in Hnd.
  - apply NoDup_cons in Hnd as [Hnot _].
    apply Forall_forall. intros y Hy. split.
    + rewrite Forall_forall in Hx. now apply Hx.
    + intros ->. contradiction.
Qed.

(* ===================================================================== *)
(** * More on the Script Wrapper                                        *)
(* ===================================================================== *)

Lemma lstrip_app_blank (a s : string) :
  whitespace_only a = true -> lstrip (a +:+ s) = lstrip s.
Proof.
  induction a as [|c a IH]; simpl; [reflexivity |].
  destruct (isspace c); simpl; [exact IH | discriminate].
Qed.

Lemma lstrip_app (s b : string) :
  lstrip (s +:+ b) = if whitespace_only s then lstrip b else lstrip s +:+ b.
Proof.
  induction s as [|c s IH]; simpl; [reflexivity |].
  destruct (isspace c); simpl; [exact IH | reflexivity].
Qed.

Lemma rstrip_blank (b : string) :
  whitespace_only b = true -> rstrip b = EmptyString.
Proof.
  induction b as [|c b IH]; simpl; [reflexivity |].
  destruct (isspace c); simpl; [| discriminate].
  intros H. now rewrite IH.
Qed.

Lemma rstrip_app_blank (s b : string) :
  whitespace_only b = true -> rstrip (s +:+ b) = rstrip s.
Proof.
  intros Hb. induction s as [|c s IH]; simpl.
  - now apply rstrip_blank.
  - now rewrite IH.
Qed.

Lemma strip_surrounded (a c b : string) :
  whitespace_only a = true -> whitespace_only b = true ->
  strip (a +:+ c +:+ b) = strip c.
Proof.
  intros Ha Hb. unfold strip. rewrite lstrip_app_blank by exact Ha.
  rewrite lstrip_app. destruct (whitespace_only c) eqn:Hc.
  - apply lstrip_empty_iff in Hc. rewrite Hc.
    apply lstrip_empty_iff in Hb. now rewrite Hb.
  - now apply rstrip_app_blank.
Qed.

(** X1: whitespace before and after the content makes no difference to
    the wrapper: for [a] and [b] empty or whitespace only, the script
    written for [a ++ c ++ b] is the script written for [c]. *)
Theorem prepare_ignores_surrounding_whitespace (a c b : string) :
  whitespace_only a = true -> whitespace_only b = true ->
  _prepare_script (a +:+ c +:+ b) = _prepare_script c.
Proof.
  intros Ha Hb. rewrite !prepare_script_eq.
  now rewrite (strip_surrounded a c b Ha Hb).
Qed.

Lemma prepare_ignores_surrounding_whitespace_witness :
  _prepare_script ("  " +:+ nl +:+ "ls -l" +:+ nl +:+ nl) = _prepare_script "ls -l".
Proof.
  apply (prepare_ignores_surrounding_whitespace ("  " +:+ nl) "ls -l" (nl +:+ nl));
    reflexivity.
Defined.

Lemma split_after_first_line (s : string) :
  split LF (after_first_line s)
  = match tl (split LF s) with [] => [EmptyString] | l => l end.
Proof.
  induction s as [|c s IH]; simpl; [reflexivity |].
  destruct (split_nonempty LF s) as (h & t & Hs).
  destruct (Ascii.eqb c LF); simpl.
  - now rewrite Hs.
  - rewrite IH, Hs. reflexivity.
Qed.

Lemma prepare_script_lines (content : string) :
  split LF (_prepare_script content)
  = safety_header ++ EmptyString ::
      split LF (if startswith (strip content) "#!/"
                then after_first_line (strip content) else strip content).
Proof.
  rewrite prepare_script_eq.
  set (body := if startswith (strip content) "#!/"
               then after_first_line (strip content) else strip content).
  assert (E : directive +:+ nl +:+ preamble +:+ body
              = join nl (safety_header ++ [EmptyString]) +:+ String LF body).
  { generalize body. intros b. reflexivity. }
  rewrite E, split_app_nl. reflexivity.
Qed.

(** X2: the first twelve lines of the wrapped script are the fixed header
    and the thirteenth is blank; the line at position [k] of the trimmed
    content is the line at position [k + 13] of the wrapped script, and at
    position [k + 12] when the first line of the content, a directive
    beginning with ["#!/"], was removed. *)
Theorem prepared_line_offset (content : string) (k : nat) (line : string) :
  nth_error (split LF (strip content)) k = Some line ->
  firstn 13 (split LF (_prepare_script content)) = safety_header ++ [EmptyString]
  /\ (startswith (strip content) "#!/" = false ->
      nth_error (split LF (_prepare_script content)) (13 + k) = Some line)
  /\ (startswith (strip content) "#!/" = true -> (0 < k)%nat ->
      nth_error (split LF (_prepare_script content)) (12 + k) = Some line).
Proof.
  intros Hk. rewrite prepare_script_lines. split; [reflexivity |]. split.
  - intros ->. exact Hk.
  - intros -> Hpos. destruct k as [|k]; [lia |].
    change (nth_error (split LF (after_first_line (strip content))) k = Some line).
    rewrite split_after_first_line.
    destruct (split_nonempty LF (strip content)) as (h & t & Hs).
    rewrite Hs in *. simpl in *. destruct t; [now destruct k | exact Hk].
Qed.

Lemma prepared_line_offset_witness :
  nth_error (split LF (_prepare_script ("ls" +:+ nl +:+ "exit 3"))) 14
  = Some "exit 3"%string.
Proof.
  apply (proj1 (proj2 (prepared_line_offset ("ls" +:+ nl +:+ "exit 3") 1 "exit 3"
                         eq_refl))).
  reflexivity.
Defined.

(** X3: a directive line that begins with ["#!"] but not with ["#!/"]
    (such as ["#! /bin/sh"]) is not removed: the trimmed content is appended
    whole, so the line after the preamble of the wrapped script is that
    directive. *)
Theorem prepare_keeps_directive_without_slash (content : string) :
  startswith (strip content) "#!" = true ->
  startswith (strip content) "#!/" = false ->
  _prepare_script content = directive +:+ nl +:+ preamble +:+ strip content
  /\ exists first,
       nth_error (split LF (_prepare_script content)) 13 = Some first
       /\ startswith first "#!" = true.
Proof.
  intros Hd Hs. split.
  - rewrite prepare_script_eq, Hs. reflexivity.
  - rewrite prepare_script_lines, Hs.
    change (exists first,
               nth_error (split LF (strip content)) 0 = Some first
               /\ startswith first "#!" = true).
    destruct (strip content) as [|a [|b s]]; cbn [startswith] in Hd;
      [discriminate Hd | destruct (Ascii.eqb "#" a); discriminate Hd |].
    apply andb_prop in Hd as [Ha Hb].
    apply andb_prop in Hb as [Hb _].
    apply Ascii.eqb_eq in Ha, Hb. subst a b.
    destruct (split_nonempty LF s) as (h & t & Hsplit).
    assert (E : split LF (String "#" (String "!" s))
                = String "#" (String "!" h) :: t).
    { simpl. rewrite Hsplit. reflexivity. }
    rewrite E. exists (String "#" (String "!" h)).
    split; [reflexivity |].
    cbn [startswith]. rewrite !Ascii.eqb_refl. now destruct h.
Qed.

Lemma prepare_keeps_directive_without_slash_witness :
  _prepare_script "#! /bin/sh" = directive +:+ nl +:+ preamble +:+ "#! /bin/sh".
Proof.
  apply (proj1 (prepare_keeps_directive_without_slash "#! /bin/sh" eq_refl eq_refl)).
Defined.

(* ===================================================================== *)
(** * More on the Execution Controller                                  *)
(* ===================================================================== *)

Import Trace Sessions Conduct.

Lemma new_events_of_post {A} (m : M A) (P : list event -> Prop) os w :
  post m os w (fun _ w' => exists l, events w' = events w ++ l /\ P l) ->
  P (new_events m os w).
Proof.
  unfold post, new_events. intros (l & -> & Hl).
  now rewrite drop_app_length.
Qed.

(** Closing a path: the events added are read off the final world, and
    the tests on them are evaluated with what is known of the exceptions. *)
Ltac read_log :=
  eexists; split; [rewrite <- ?app_assoc; reflexivity |].

Ltac eval_log :=
  unfold count;
  cbn [List.filter app length is_unlink is_popen is_killpg sent delivered
       output_timed_out grace_expired signal_eqb last head];
  repeat match goal with
         | H : isinstance ?e ?cs = _ |- context [isinstance ?e ?cs] => rewrite H
         end;
  cbn [List.filter app length andb Z.eqb Pos.eqb].

(** ** The timeout in force *)

Lemma execute_waits_with (content : string) (t : option Z) os w :
  Forall (fun ev => forall p T r,
              ev = EvCommunicate p T r -> T = timeout_or t (timeout (self w)))
    (new_events (execute content t) os w).
Proof.
  apply new_events_post.
  unfold execute. destruct (negb (truthy (strip content))).
  { wp. exists []. split; [now rewrite app_nil_r | constructor]. }
  wp. generalize (timeout_or t (timeout (self w))). intros T0.
  unfold _run_script, kill_process_group.
  wp_any;
    (eexists; split;
     [ rewrite <- ?app_assoc; reflexivity
     | repeat constructor; intros p T r E; inversion E; reflexivity ]).
Qed.

Lemma execute_reaches_wait (content : string) (t : option Z) os w :
  whitespace_only content = false -> prepares os -> spawns os ->
  exists p r,
    In (EvCommunicate p (timeout_or t (timeout (self w))) r)
       (new_events (execute content t) os w).
Proof.
  intros Hblank [Htmp Hch] Hsp.
  apply (new_events_of_post (execute content t)
           (fun l => exists p r,
                In (EvCommunicate p (timeout_or t (timeout (self w))) r) l)).
  unfold execute. rewrite truthy_strip, Hblank. cbn [negb]. wp.
  generalize (timeout_or t (timeout (self w))). intros T0.
  match goal with
  | |- match os_tempfile ?os ?h ?c with _ => _ end =>
      specialize (Htmp h c); destruct (os_tempfile os h c) as [path|];
      [clear Htmp | discriminate Htmp]
  end.
  wp. cbn [self events].
  match goal with
  | |- match os_chmod ?os ?h ?p ?m with _ => _ end =>
      specialize (Hch h p m); destruct (os_chmod os h p m) as [[]|];
      [clear Hch | discriminate Hch]
  end.
  unfold _run_script. wp. cbn [self events].
  match goal with
  | |- match os_popen ?os ?h ?a ?c with _ => _ end =>
      specialize (Hsp h a c); destruct (os_popen os h a c) as [pid|];
      [clear Hsp | discriminate Hsp]
  end.
  wp. cbn [self events current_process]. wp.
  unfold kill_process_group.
  wp_any; read_log; do 2 eexists; cbn [In app]; auto 10.
Qed.

(** C10, as stated, fails: a caller can get a zero-second timeout. On a
    controller configured with the timeout 0, [execute] with the timeout
    0 (or with none) waits for the script's output with a bound of zero
    seconds. *)
Lemma zero_timeout_when_configured_zero :
  exists ev,
    In ev (new_events (execute "sleep 100" (Some 0)) Env.os_slow configured_zero)
    /\ zero_second_wait ev.
Proof.
  exists (EvCommunicate 4242 0 (Raise Env.timeout_expired)). split.
  - vm_compute. tauto.
  - now exists 4242, (Raise Env.timeout_expired).
Qed.

(** C10 (amended): a controller built without a timeout is configured
    with 30 seconds, and one built with a timeout with that timeout.
    Calling [execute] with the timeout 0 is the same as calling it
    without a timeout, and in both cases every wait for the script's
    output is bounded by the configured timeout; such a wait does take
    place when the content is not blank, the script file is written and
    made executable and the interpreter is spawned. Whatever timeout is
    passed, a wait bounded by zero seconds happens only on a controller
    that was itself configured with the timeout 0. *)
Theorem timeout_defaults_when_falsy :
  (forall wd cwd,
      timeout (__init__ None wd cwd) = 30
      /\ forall n, timeout (__init__ (Some n) wd cwd) = n)
  /\ (forall content os w,
        execute content (Some 0) os w = execute content None os w)
  /\ (forall content t os w,
        t = None \/ t = Some 0 ->
        Forall (fun ev => forall p T r,
                    ev = EvCommunicate p T r -> T = timeout (self w))
          (new_events (execute content t) os w))
  /\ (forall content t os w,
        t = None \/ t = Some 0 ->
        whitespace_only content = false -> prepares os -> spawns os ->
        exists p r,
          In (EvCommunicate p (timeout (self w)) r)
             (new_events (execute content t) os w))
  /\ (forall content t os w,
        Forall (fun ev => zero_second_wait ev -> timeout (self w) = 0)
          (new_events (execute content t) os w)).
Proof.
  split; [intros wd cwd; split; reflexivity |].
  split; [reflexivity |].
  split.
  { intros content t os w Ht.
    pose proof (execute_waits_with content t os w) as H.
    destruct Ht as [-> | ->]; exact H. }
  split.
  { intros content t os w Ht Hblank Hp Hs.
    pose proof (execute_reaches_wait content t os w Hblank Hp Hs) as H.
    destruct Ht as [-> | ->]; exact H. }
  intros content t os w.
  eapply Forall_impl; [apply execute_waits_with |].
  intros ev Hev (p & r & ->). specialize (Hev p 0 r eq_refl).
  unfold timeout_or in Hev. destruct t as [n|]; [| now symmetry].
  destruct (n =? 0) eqn:E; [now symmetry |].
  apply Z.eqb_neq in E. congruence.
Qed.

Lemma timeout_defaults_when_falsy_witness :
  exists p r,
    In (EvCommunicate p 30 r)
       (new_events (execute "sleep 100" (Some 0)) Env.os_slow Env.fresh).
Proof.
  apply (proj1 (proj2 (proj2 (proj2 timeout_defaults_when_falsy)))
           "sleep 100" (Some 0) Env.os_slow Env.fresh).
  - right. reflexivity.
  - reflexivity.
  - split; intros; reflexivity.
  - intros h a c. reflexivity.
Defined.

(** ** The temporary file *)



(** X5: in any environment, one call of [execute] spawns at most one
    process, sends SIGTERM at most once and only if the wait for the
    output ended with [TimeoutExpired], lets the five seconds of grace
    expire only if SIGTERM was delivered, sends SIGKILL only if that wait
    expired, and never sends SIGINT. *)
Theorem execute_signal_discipline (content : string) (t : option Z)
    (os : OS) (w : world) :
  let log := new_events (execute content t) os w in
  (count is_popen log <= 1)%nat
  /\ (count output_timed_out log <= count is_popen log)%nat
  /\ (count (sent SIGTERM) log <= count output_timed_out log)%nat
  /\ (count grace_expired log <= count (delivered SIGTERM) log)%nat
  /\ (count (sent SIGKILL) log <= count grace_expired log)%nat
  /\ count (sent SIGINT) log = 0%nat.
Proof.
  cbv zeta.
  apply (new_events_of_post (execute content t)
           (fun log =>
              (count is_popen log <= 1)%nat
              /\ (count output_timed_out log <= count is_popen log)%nat
              /\ (count (sent SIGTERM) log <= count output_timed_out log)%nat
              /\ (count grace_expired log <= count (delivered SIGTERM) log)%nat
              /\ (count (sent SIGKILL) log <= count grace_expired log)%nat
              /\ count (sent SIGINT) log = 0%nat)).
  unfold execute. destruct (negb (truthy (strip content))).
  { wp. exists []. split; [now rewrite app_nil_r |]. cbn. lia. }
  unfold _run_script, kill_process_group.
  wp_any; read_log; eval_log; lia.
Qed.

(** X6: a failure to set up the script file is raised, not returned: when
    the temporary file cannot be created its error leaves [execute] and
    nothing else happens; when the file cannot be made executable the
    error leaves [execute] after the file was removed, and no process is
    spawned. *)
Theorem execute_setup_failure_propagates :
  (forall content t os w e,
      whitespace_only content = false ->
      os_tempfile os (events w) (_prepare_script content) = Raise e ->
      execute content t os w
      = (Raise e,
         {| self := self w;
            events := events w
                      ++ [EvTempFile (_prepare_script content) (Raise e)] |}))
  /\
  (forall content t os w path e,
      whitespace_only content = false ->
      os_tempfile os (events w) (_prepare_script content) = Return path ->
      let h1 := events w ++ [EvTempFile (_prepare_script content) (Return path)] in
      os_chmod os h1 path 493 = Raise e ->
      let h2 := h1 ++ [EvChmod path 493 (Raise e)] in
      raises_only [OSError] (os_unlink os h2 path) = true ->
      execute content t os w
      = (Raise e,
         {| self := self w;
            events := h2 ++ [EvUnlink path (os_unlink os h2 path)] |})).
Proof.
  split.
  - intros content t os w e Hblank Htmp. unfold execute.
    rewrite truthy_strip, Hblank. cbn [negb].
    unfold bind at 1, get_self.
    unfold bind at 1, NamedTemporaryFile_write, syscall. now rewrite Htmp.
  - intros content t os w path e Hblank Htmp h1 Hch h2 Hrm.
    subst h1 h2.
    enough (H : post (execute content t) os w
              (fun r w' =>
                 (r, w')
                 = (Raise e,
                    {| self := self w;
                       events :=
                         (events w
                          ++ [EvTempFile (_prepare_script content) (Return path)]
                          ++ [EvChmod path 493 (Raise e)])
                         ++ [EvUnlink path
                               (os_unlink os
                                  (events w
                                   ++ [EvTempFile (_prepare_script content)
                                         (Return path)]
                                   ++ [EvChmod path 493 (Raise e)]) path)] |}))).
    { unfold post in H. rewrite <- surjective_pairing in H.
      rewrite <- !app_assoc in *. exact H. }
    rewrite <- !app_assoc in *.
    unfold execute. rewrite truthy_strip, Hblank. cbn [negb]. wp.
    rewrite Htmp. wp. cbn [self events]. rewrite Hch.
    wp. cbn [self events]. rewrite <- !app_assoc. cbn [app].
    cbn [app] in Hrm.
    destruct (os_unlink os _ path) as [[]|e'] eqn:Hun.
    + reflexivity.
    + cbn [raises_only] in Hrm. cbn [select_clause]. rewrite Hrm. wp.
      reflexivity.
Qed.

Lemma execute_setup_failure_propagates_witness :
  execute "echo hi" None Faults.os_no_chmod Env.fresh
  = (Raise Faults.permission_denied,
     {| self := self Env.fresh;
        events := [EvTempFile (_prepare_script "echo hi")
                     (Return "/tmp/tmp1a2b3c.sh"%string);
                   EvChmod "/tmp/tmp1a2b3c.sh" 493 (Raise Faults.permission_denied);
                   EvUnlink "/tmp/tmp1a2b3c.sh" (Return tt)] |}).
Proof.
  apply (proj2 execute_setup_failure_propagates "echo hi" None
           Faults.os_no_chmod Env.fresh "/tmp/tmp1a2b3c.sh"
           Faults.permission_denied eq_refl eq_refl eq_refl eq_refl).
Defined.

Lemma post_outcome_world_log {A} (m : M A) os w
    (R : outcome A -> Prop) (S : world -> Prop) (P : list event -> Prop) :
  post m os w
    (fun r w' => R r /\ S w' /\ exists l, events w' = events w ++ l /\ P l) ->
  R (fst (m os w)) /\ S (snd (m os w)) /\ P (new_events m os w).
Proof.
  unfold post, new_events. intros (Hr & Hs & l & -> & Hl).
  rewrite drop_app_length. auto.
Qed.

Lemma not_exception_not_timeout (e : exn) :
  isinstance e [Exception] = false -> isinstance e [TimeoutExpired] = false.
Proof. destruct e as [[] msg]; cbn; congruence. Qed.

(** X8: an exception that is not an [Exception] (a [KeyboardInterrupt])
    raised while waiting for the output leaves [execute]: the handle is
    cleared and the temporary file removed, but the process group of the
    child is not signalled. *)
Theorem execute_interrupted_wait (content : string) (t : option Z)
    (os : OS) (w : world) (e : exn) :
  whitespace_only content = false ->
  prepares os -> spawns os ->
  (forall h p T, os_communicate os h p T = Raise e) ->
  isinstance e [Exception] = false ->
  (forall h p, raises_only [OSError] (os_unlink os h p) = true) ->
  fst (execute content t os w) = Raise e
  /\ handle_clear (snd (execute content t os w))
  /\ (count is_killpg (new_events (execute content t) os w) = 0%nat
      /\ count is_unlink (new_events (execute content t) os w) = 1%nat).
Proof.
  intros Hblank [Htmp Hch] Hsp Hcomm He Hun.
  apply (post_outcome_world_log (execute content t) os w
           (fun r => r = Raise e) handle_clear
           (fun l => count is_killpg l = 0%nat /\ count is_unlink l = 1%nat)).
  unfold execute. rewrite truthy_strip, Hblank. cbn [negb]. wp.
  match goal with
  | |- match os_tempfile ?os ?h ?c with _ => _ end =>
      specialize (Htmp h c); destruct (os_tempfile os h c) as [path|];
      [clear Htmp | discriminate Htmp]
  end.
  wp. cbn [self events].
  match goal with
  | |- match os_chmod ?os ?h ?p ?m with _ => _ end =>
      specialize (Hch h p m); destruct (os_chmod os h p m) as [[]|];
      [clear Hch | discriminate Hch]
  end.
  unfold _run_script. wp. cbn [self events].
  match goal with
  | |- match os_popen ?os ?h ?a ?c with _ => _ end =>
      specialize (Hsp h a c); destruct (os_popen os h a c) as [pid|];
      [clear Hsp | discriminate Hsp]
  end.
  wp. cbn [self events current_process]. wp.
  rewrite Hcomm. cbn [select_clause].
  rewrite (not_exception_not_timeout e He), He.
  wp. cbn [self events].
  match goal with
  | |- match os_unlink ?os ?h ?p with _ => _ end =>
      specialize (Hun h p); destruct (os_unlink os h p) as [[]|e'];
      cbn [raises_only] in Hun; cbn [select_clause]; rewrite ?Hun
  end; wp;
    (split; [reflexivity |]); (split; [reflexivity |]);
    read_log; eval_log; split; reflexivity.
Qed.

Lemma execute_interrupted_wait_witness :
  fst (execute "sleep 100" None Faults.os_ctrl_c Env.fresh)
  = Raise Faults.keyboard_interrupt.
Proof.
  apply (execute_interrupted_wait "sleep 100" None Faults.os_ctrl_c Env.fresh
           Faults.keyboard_interrupt).
  - reflexivity.
  - split; intros; reflexivity.
  - intros h a c. reflexivity.
  - intros h p T. reflexivity.
  - reflexivity.
  - intros h p. reflexivity.
Defined.

(** X9: while a process is recorded, [interrupt_execution] looks up its
    process group and sends SIGINT to that group, once; when the lookup
    fails no signal is sent; an [OSError] of either call is swallowed, any
    other exception is raised; the controller, the handle included, is
    left as it was. *)
Theorem interrupt_signals_group (os : OS) (w : world) (p : Z) :
  current_process (self w) = Some p ->
  let lookup := os_getpgid os (events w) p in
  let h1 := events w ++ [EvGetpgid p lookup] in
  match lookup with
  | Return g =>
      let answer := os_killpg os h1 g SIGINT in
      interrupt_execution os w
      = (match answer with
         | Return _ => Return tt
         | Raise e =>
             if isinstance e [OSError; ProcessLookupError]
             then Return tt else Raise e
         end,
         {| self := self w; events := h1 ++ [EvKillpg g SIGINT answer] |})
  | Raise e =>
      interrupt_execution os w
      = (if isinstance e [OSError; ProcessLookupError]
         then Return tt else Raise e,
         {| self := self w; events := h1 |})
  end.
Proof.
  intros Hp. cbv zeta.
  assert (H : post interrupt_execution os w
            (fun r w' =>
               match os_getpgid os (events w) p with
               | Return g =>
                   (r, w')
                   = (match os_killpg os
                              (events w
                               ++ [EvGetpgid p (os_getpgid os (events w) p)])
                              g SIGINT with
                      | Return _ => Return tt
                      | Raise e =>
                          if isinstance e [OSError; ProcessLookupError]
                          then Return tt else Raise e
                      end,
                      {| self := self w;
                         events :=
                           (events w
                            ++ [EvGetpgid p (os_getpgid os (events w) p)])
                           ++ [EvKillpg g SIGINT
                                 (os_killpg os
                                    (events w
                                     ++ [EvGetpgid p
                                           (os_getpgid os (events w) p)])
                                    g SIGINT)] |})
               | Raise e =>
                   (r, w')
                   = (if isinstance e [OSError; ProcessLookupError]
                      then Return tt else Raise e,
                      {| self := self w;
                         events :=
                           events w
                           ++ [EvGetpgid p (os_getpgid os (events w) p)] |})
               end)).
  { unfold interrupt_execution. wp. rewrite Hp. wp. rewrite Hp. wp.
    destruct (os_getpgid os (events w) p) as [g|e] eqn:Hg; cbn beta iota.
    - wp. cbn [self events].
      destruct (os_killpg os _ g SIGINT) as [[]|e] eqn:Hk; [reflexivity |].
      cbn [select_clause].
      destruct (isinstance e [OSError; ProcessLookupError]); wp; reflexivity.
    - cbn [select_clause].
      destruct (isinstance e [OSError; ProcessLookupError]); wp; reflexivity. }
  unfold post in H. rewrite <- surjective_pairing in H. exact H.
Qed.

Lemma interrupt_signals_group_witness :
  interrupt_execution Env.os_ok Env.busy
  = (Return tt,
     {| self := self Env.busy;
        events := [EvGetpgid 77 (Return 77); EvKillpg 77 SIGINT (Return tt)] |}).
Proof.
  apply (interrupt_signals_group Env.os_ok Env.busy 77 eq_refl).
Defined.

Lemma execute_keeps_configuration (content : string) (t : option Z) os w :
  timeout (self (snd (execute content t os w))) = timeout (self w)
  /\ working_dir (self (snd (execute content t os w))) = working_dir (self w).
Proof.
  change (post (execute content t) os w
            (fun _ w' => timeout (self w') = timeout (self w)
                         /\ working_dir (self w') = working_dir (self w))).
  unfold execute. destruct (negb (truthy (strip content))).
  { wp. split; reflexivity. }
  unfold _run_script, kill_process_group.
  wp_any; split; reflexivity.
Qed.

(** X10: no sequence of calls of [execute], [execute_command],
    [interrupt_execution] and [validate_script_syntax] changes the timeout
    or the working directory the controller was configured with. *)
Theorem configuration_is_stable (w0 w : world) :
  calls_from w0 w ->
  timeout (self w) = timeout (self w0)
  /\ working_dir (self w) = working_dir (self w0).
Proof.
  induction 1 as [| w os c t _ [IHt IHd] | w os c t _ [IHt IHd]
                  | w os _ [IHt IHd] | w os c _ [IHt IHd]].
  - split; reflexivity.
  - destruct (execute_keeps_configuration c t os w) as [Ht Hd].
    split; congruence.
  - destruct (execute_keeps_configuration c t os w) as [Ht Hd].
    unfold execute_command. split; congruence.
  - rewrite interrupt_keeps_self. auto.
  - rewrite validate_keeps_self. auto.
Qed.

Lemma configuration_is_stable_witness :
  timeout (self (snd (execute "sleep 100" (Some 1) Env.os_slow Env.fresh))) = 30.
Proof.
  apply (configuration_is_stable Env.fresh
           (snd (execute "sleep 100" (Some 1) Env.os_slow Env.fresh))).
  apply calls_execute. apply calls_none.
Defined.

(** X11: what the syntax check answers once the temporary file exists:
    status zero gives [(True, "Syntax is valid")] whatever the interpreter
    printed; any other status gives the interpreter's standard error
    trimmed, or "Syntax error detected" when that is blank; a timeout
    gives "Syntax check timed out"; any other [Exception] gives "Syntax
    check failed: " and its description; standard output is ignored. *)
Theorem validate_answers (content : string) (os : OS) (w : world)
    (path : string) :
  whitespace_only content = false ->
  os_tempfile os (events w) content = Return path ->
  (forall h, raises_only [OSError] (os_unlink os h path) = true) ->
  fst (validate_script_syntax content os w)
  = match os_run os (events w ++ [EvTempFile content (Return path)])
            ["/bin/bash"; "-n"; path]%string 10 with
    | Return (rc, out, err) =>
        if rc =? 0 then Return (true, "Syntax is valid"%string)
        else if whitespace_only err
             then Return (false, "Syntax error detected"%string)
             else Return (false, strip err)
    | Raise e =>
        if isinstance e [TimeoutExpired]
        then Return (false, "Syntax check timed out"%string)
        else if isinstance e [Exception]
             then Return (false, "Syntax check failed: " +:+ exn_str e)
             else Raise e
    end.
Proof.
  intros Hblank Htmp Hun.
  as_post (validate_script_syntax content) os w.
  unfold validate_script_syntax. rewrite truthy_strip, Hblank.
  cbn [negb]. wp. rewrite Htmp. wp. cbn [self events].
  destruct (os_run os (events w ++ [EvTempFile content (Return path)])
              ["/bin/bash"; "-n"; path]%string 10)
    as [[[rc out] err]|e] eqn:Hrun.
  - cbn [fst snd]. destruct (rc =? 0) eqn:Hrc; wp; cbn [self events];
      match goal with
      | |- match os_unlink ?os ?h ?p with _ => _ end =>
          pose proof (Hun h) as Hu; destruct (os_unlink os h p) as [[]|e'];
          cbn [raises_only] in Hu; cbn [select_clause]; rewrite ?Hu
      end; wp; try reflexivity;
      unfold str_or; rewrite truthy_strip;
      destruct (whitespace_only err); reflexivity.
  - cbn [select_clause].
    destruct (isinstance e [TimeoutExpired]);
      [| destruct (isinstance e [Exception])];
      wp; cbn [self events];
      match goal with
      | |- match os_unlink ?os ?h ?p with _ => _ end =>
          pose proof (Hun h) as Hu; destruct (os_unlink os h p) as [[]|e'];
          cbn [raises_only] in Hu; cbn [select_clause]; rewrite ?Hu
      end; wp; reflexivity.
Qed.

Lemma validate_answers_witness :
  fst (validate_script_syntax "sleep 100" Env.os_slow Env.fresh)
  = Return (false, "Syntax check timed out"%string).
Proof.
  apply (validate_answers "sleep 100" Env.os_slow Env.fresh "/tmp/tmp1a2b3c.sh"
           eq_refl eq_refl).
  intros h. reflexivity.
Defined.

(* ===================================================================== *)
(** * More on the dependency scan                                       *)
(* ===================================================================== *)

Import Scan Shape.

Lemma star_spec cls k (s : string) :
  forall taken prev r,
    star cls k taken prev s = Some r ->
    exists t s' prev',
      s = t +:+ s' /\ all_in cls t = true /\ k (taken +:+ t) prev' s' = Some r.
Proof.
  induction s as [|c s IH]; intros taken prev r H; simpl in H.
  - exists EmptyString, EmptyString, prev. rewrite (append_nil_r taken). auto.
  - destruct (cls c) eqn:Hc.
    + destruct (star cls k (taken +:+ String c "") (Some c) s) as [r'|] eqn:Hs.
      * injection H as <-. apply IH in Hs as (t & s' & prev' & -> & Ht & Hk).
        exists (String c t), s', prev'. simpl. rewrite Hc, Ht.
        rewrite append_assoc in Hk. auto.
      * exists EmptyString, (String c s), prev. rewrite (append_nil_r taken). auto.
    + exists EmptyString, (String c s), prev. rewrite (append_nil_r taken). auto.
Qed.

Lemma plus_spec cls k prev (s : string) r :
  plus cls k prev s = Some r ->
  exists t s' prev',
    t <> EmptyString /\ s = t +:+ s' /\ all_in cls t = true
    /\ k t prev' s' = Some r.
Proof.
  unfold plus. destruct s as [|c s]; [discriminate |].
  destruct (cls c) eqn:Hc; [| discriminate].
  intros H. apply star_spec in H as (t & s' & prev' & -> & Ht & Hk).
  exists (String c t), s', prev'. simpl. rewrite Hc, Ht. auto.
Qed.

Lemma occurs_in_cons (t s : string) (c : ascii) :
  occurs_in t s -> occurs_in t (String c s).
Proof. intros (a & b & ->). now exists (String c a), b. Qed.

Lemma occurs_in_app (t s pre : string) :
  occurs_in t s -> occurs_in t (pre +:+ s).
Proof.
  intros (a & b & ->). exists (pre +:+ a), b. now rewrite append_assoc.
Qed.

(** What a match captures: the group it was given, or a non-empty run of
    the group's class that occurs in the text. *)
Lemma match_here_captures cls (p : pattern) :
  groups_are cls p ->
  forall g n prev s g' n',
    match_here p g n prev s = Some (g', n') ->
    g' = g \/
    exists t, g' = Some t /\ t <> EmptyString /\ all_in cls t = true
              /\ occurs_in t s.
Proof.
  induction 1 as [|nd p Hnd Hp IH]; intros g n prev s g' n' H.
  { left. simpl in H. congruence. }
  destruct nd as [c| |cl|cl]; simpl in H.
  - destruct s as [|d s]; [discriminate |].
    destruct (Ascii.eqb c d); [| discriminate].
    apply IH in H as [-> | (t & -> & Hne & Hall & Hocc)]; [now left |].
    right. exists t. eauto using occurs_in_cons.
  - destruct (xorb _ _); [| discriminate]. now apply IH in H.
  - apply plus_spec in H as (t0 & s' & prev' & _ & -> & _ & H).
    apply IH in H as [-> | (t & -> & Hne & Hall & Hocc)]; [now left |].
    right. exists t. eauto using occurs_in_app.
  - subst cl.
    apply plus_spec in H as (t0 & s' & prev' & Hne0 & -> & Hall0 & H).
    apply IH in H as [-> | (t & -> & Hne & Hall & Hocc)]; right.
    + exists t0. repeat split; auto. exists EmptyString, s'. reflexivity.
    + exists t. eauto using occurs_in_app.
Qed.

(** A pattern with a group captures something. *)
Lemma match_here_group (p : pattern) :
  forall g n prev s g' n',
    match_here p g n prev s = Some (g', n') ->
    g' = None -> g = None /\ existsb is_group p = false.
Proof.
  induction p as [|nd p IH]; intros g n prev s g' n' H Hnone.
  { simpl in H. split; [congruence | reflexivity]. }
  destruct nd as [c| |cl|cl]; simpl in H |- *.
  - destruct s as [|d s]; [discriminate |].
    destruct (Ascii.eqb c d); [| discriminate]. eauto.
  - destruct (xorb _ _); [| discriminate]. eauto.
  - apply plus_spec in H as (t0 & s' & prev' & _ & -> & _ & H). eauto.
  - apply plus_spec in H as (t0 & s' & prev' & Hne0 & -> & Hall0 & H).
    destruct (IH _ _ _ _ _ _ H Hnone) as [Habs _]. discriminate Habs.
Qed.

Lemma findall_from_names cls (p : pattern) :
  groups_are cls p -> existsb is_group p = true ->
  forall s prev skip x,
    x ∈ findall_from p prev skip s ->
    x <> EmptyString /\ all_in cls x = true /\ occurs_in x s.
Proof.
  intros Hg Hhas.
  assert (Hm : forall prev s g n x,
             match_here p None 0%nat prev s = Some (g, n) ->
             x = group_text g ->
             x <> EmptyString /\ all_in cls x = true /\ occurs_in x s).
  { intros prev s g n x H ->.
    destruct (match_here_captures cls p Hg _ _ _ _ _ _ H)
      as [-> | (t & -> & Hne & Hall & Hocc)]; [| now auto].
    apply match_here_group in H as [_ H]; congruence. }
  induction s as [|c s IH]; intros prev skip x Hx; simpl in Hx.
  - destruct skip; [| now apply elem_of_nil in Hx].
    destruct (match_here p None 0%nat prev EmptyString) as [[g n]|] eqn:E;
      [| now apply elem_of_nil in Hx].
    apply elem_of_cons in Hx as [Hx | Hx]; [eauto |].
    now apply elem_of_nil in Hx.
  - destruct skip as [|k].
    + destruct (match_here p None 0%nat prev (String c s)) as [[g n]|] eqn:E.
      * apply elem_of_cons in Hx as [Hx | Hx]; [eauto |].
        apply IH in Hx as (? & ? & ?). eauto using occurs_in_cons.
      * apply IH in Hx as (? & ? & ?). eauto using occurs_in_cons.
    + apply IH in Hx as (? & ? & ?). eauto using occurs_in_cons.
Qed.

Lemma command_patterns_capture (p : pattern) :
  p ∈ command_patterns ->
  groups_are word_or_dash p /\ existsb is_group p = true.
Proof.
  unfold command_patterns. rewrite !elem_of_cons, elem_of_nil.
  intros [-> | [-> | [-> | [-> | [-> | []]]]]];
    (split; [repeat constructor | reflexivity]).
Qed.

(** X12: every name [get_script_dependencies] reports is a non-empty run
    of word characters and dashes that occurs in the content. *)
Theorem dependency_names_occur (content x : string) :
  x ∈ get_script_dependencies content ->
  x <> EmptyString /\ all_in word_or_dash x = true /\ occurs_in x content.
Proof.
  unfold get_script_dependencies, sorted.
  rewrite merge_sort_Permutation, elem_of_elements, elem_of_collect.
  intros [(p & Hp & Hx) _].
  apply command_patterns_capture in Hp as [Hg Hhas].
  exact (findall_from_names word_or_dash p Hg Hhas _ _ _ _ Hx).
Qed.

Lemma dependency_names_occur_witness :
  occurs_in "git" "which git".
Proof.
  apply (dependency_names_occur "which git" "git").
  vm_compute. constructor.
Defined.

Lemma some_in_app_r cls (a b : string) :
  some_in cls b = true -> some_in cls (a +:+ b) = true.
Proof.
  intros Hb. induction a as [|c a IH]; simpl; [exact Hb |].
  rewrite IH. apply orb_true_r.
Qed.

Lemma some_in_app_l cls (a b : string) :
  a <> EmptyString -> all_in cls a = true -> some_in cls (a +:+ b) = true.
Proof.
  destruct a as [|c a]; [congruence |]. simpl.
  intros _ H. apply andb_prop in H as [-> _]. reflexivity.
Qed.

(** A match consumes, for each node of the pattern that is not an
    assertion, a character the node accepts. *)
Lemma match_here_consumes (p : pattern) :
  forall g n prev s r,
    match_here p g n prev s = Some r ->
    forall nd, In nd p -> is_boundary nd = false ->
               some_in (consumes nd) s = true.
Proof.
  induction p as [|nd0 p IH]; intros g n prev s r H nd Hin Hnb;
    [destruct Hin |].
  destruct nd0 as [c| |cl|cl]; simpl in H.
  - destruct s as [|d s]; [discriminate |].
    destruct (Ascii.eqb c d) eqn:Hcd; [| discriminate].
    destruct Hin as [<- | Hin]; simpl.
    + now rewrite Hcd.
    + rewrite (IH _ _ _ _ _ H nd Hin Hnb). apply orb_true_r.
  - destruct (xorb _ _); [| discriminate].
    destruct Hin as [<- | Hin]; [discriminate Hnb | eauto].
  - apply plus_spec in H as (t0 & s' & prev' & Hne & -> & Hall & H).
    destruct Hin as [<- | Hin].
    + now apply some_in_app_l.
    + apply some_in_app_r. eauto.
  - apply plus_spec in H as (t0 & s' & prev' & Hne & -> & Hall & H).
    destruct Hin as [<- | Hin].
    + now apply some_in_app_l.
    + apply some_in_app_r. eauto.
Qed.

Lemma findall_from_nil (p : pattern) (nd : node) :
  In nd p -> is_boundary nd = false ->
  forall s prev skip,
    some_in (consumes nd) s = false -> findall_from p prev skip s = [].
Proof.
  intros Hin Hnb.
  assert (Hm : forall prev s,
             some_in (consumes nd) s = false ->
             match_here p None 0%nat prev s = None).
  { intros prev s Hs.
    destruct (match_here p None 0%nat prev s) as [r|] eqn:E; [| reflexivity].
    rewrite (match_here_consumes p _ _ _ _ _ E nd Hin Hnb) in Hs.
    discriminate Hs. }
  induction s as [|c s IH]; intros prev skip Hs.
  - simpl. rewrite (Hm prev EmptyString Hs). now destruct skip.
  - cbn [findall_from]. rewrite (Hm prev (String c s) Hs).
    simpl in Hs. apply orb_false_elim in Hs as [_ Hs].
    destruct skip; now apply IH.
Qed.

(** X13: a content with no whitespace character, no ["$"] and no
    backquote has no dependency reported: a name is found only before
    whitespace, after [which] or [command -v] and whitespace, or at the
    head of a command substitution. *)
Theorem no_separator_no_dependencies (content : string) :
  some_in isspace content = false ->
  some_in (Ascii.eqb "$") content = false ->
  some_in (Ascii.eqb "`") content = false ->
  get_script_dependencies content = [].
Proof.
  intros Hsp Hdollar Htick.
  assert (Hall : forall p, p ∈ command_patterns -> findall p content = []).
  { unfold command_patterns. intros p.
    rewrite !elem_of_cons, elem_of_nil.
    intros [-> | [-> | [-> | [-> | [-> | []]]]]]; unfold findall.
    - apply (findall_from_nil _ (Plus isspace));
        [simpl; auto 20 | reflexivity | exact Hsp].
    - apply (findall_from_nil _ (Plus isspace));
        [simpl; auto 20 | reflexivity | exact Hsp].
    - apply (findall_from_nil _ (Plus isspace));
        [simpl; auto 20 | reflexivity | exact Hsp].
    - apply (findall_from_nil _ (Lit "$"));
        [simpl; auto 20 | reflexivity | exact Hdollar].
    - apply (findall_from_nil _ (Lit "`"));
        [simpl; auto 20 | reflexivity | exact Htick]. }
  assert (Hc : collect content = ∅).
  { apply set_eq. intros x. rewrite elem_of_collect. split.
    - intros [(p & Hp & Hx) _]. rewrite (Hall p Hp) in Hx.
      now apply elem_of_nil in Hx.
    - intros Hx. now apply not_elem_of_empty in Hx. }
  unfold get_script_dependencies, sorted. rewrite Hc, elements_empty.
  reflexivity.
Qed.

Lemma no_separator_no_dependencies_witness :
  get_script_dependencies "git-status" = [].
Proof.
  apply (no_separator_no_dependencies "git-status"); reflexivity.
Defined.

(** ** What the table of patterns finds *)

Lemma space_not_word (c : ascii) : isspace c = true -> word_or_dash c = false.
Proof.
  destruct c as [[] [] [] [] [] [] [] []]; vm_compute; congruence.
Qed.

Lemma word_not_space (c : ascii) : word_or_dash c = true -> isspace c = false.
Proof.
  intros H. destruct (isspace c) eqn:E; [| reflexivity].
  apply space_not_word in E. congruence.
Qed.

Lemma last_char_cons (c : ascii) (s : string) :
  s <> EmptyString -> last_char (String c s) = last_char s.
Proof. destruct s; [congruence | reflexivity]. Qed.

Lemma last_char_some (s : string) :
  s <> EmptyString -> exists c, last_char s = Some c.
Proof.
  induction s as [|c s IH]; [congruence |]. intros _.
  destruct s as [|d s]; [now exists c |].
  rewrite last_char_cons by discriminate. apply IH. discriminate.
Qed.

Lemma last_of_cons (c : ascii) (s : string) (prev : option ascii) :
  last_of (String c s) prev = last_of s (Some c).
Proof.
  unfold last_of. destruct s as [|d s]; [reflexivity |].
  rewrite last_char_cons by discriminate.
  destruct (last_char_some (String d s)) as [e ->]; [discriminate |].
  reflexivity.
Qed.

Lemma string_length_app (a b : string) :
  String.length (a +:+ b) = (String.length a + String.length b)%nat.
Proof. induction a as [|c a IH]; simpl; [reflexivity | now rewrite IH]. Qed.

(** ** Greedy repetition *)

(** A repetition takes the whole run when the rest of the pattern matches
    behind it. *)
Lemma star_greedy cls k (rest : string) r :
  begins_in cls rest = false ->
  forall t taken prev,
    all_in cls t = true ->
    k (taken +:+ t) (last_of t prev) rest = Some r ->
    star cls k taken prev (t +:+ rest) = Some r.
Proof.
  intros Hrest. induction t as [|d t IH]; intros taken prev Hall Hk.
  - rewrite append_nil_r in Hk. cbn [String.append last_of last_char] in *.
    destruct rest as [|c rest]; [exact Hk |].
    cbn [star]. cbn [begins_in] in Hrest. now rewrite Hrest.
  - cbn [all_in] in Hall. apply andb_prop in Hall as [Hd Hall].
    cbn [String.append star]. rewrite Hd.
    rewrite (IH (taken +:+ String d "") (Some d) Hall); [reflexivity |].
    rewrite append_assoc. rewrite last_of_cons in Hk. exact Hk.
Qed.

Lemma plus_greedy cls k (rest : string) r (t : string) prev :
  begins_in cls rest = false ->
  t <> EmptyString -> all_in cls t = true ->
  k t (last_of t prev) rest = Some r ->
  plus cls k prev (t +:+ rest) = Some r.
Proof.
  intros Hrest Hne Hall Hk. destruct t as [|d t]; [congruence |].
  cbn [all_in] in Hall. apply andb_prop in Hall as [Hd Hall].
  cbn [String.append plus]. rewrite Hd.
  apply star_greedy; auto. rewrite last_of_cons in Hk. exact Hk.
Qed.

(** A repetition followed by something that always matches, matches. *)
Lemma star_any cls k g :
  (forall taken prev s, exists n, k taken prev s = Some (g, n)) ->
  forall (s : string) taken prev,
    exists n, star cls k taken prev s = Some (g : option string, n).
Proof.
  intros Hk. induction s as [|c s IH]; intros taken prev; cbn [star]; [apply Hk |].
  destruct (cls c); [| apply Hk].
  destruct (IH (taken +:+ String c "") (Some c)) as [n ->]. eauto.
Qed.

Lemma plus_any cls k g (c : ascii) (s : string) prev :
  (forall taken prev s, exists n, k taken prev s = Some (g, n)) ->
  cls c = true ->
  exists n, plus cls k prev (String c s) = Some (g : option string, n).
Proof. intros Hk Hc. cbn [plus]. rewrite Hc. now apply star_any. Qed.

(** ** Reaching a match *)

(** When no match that begins in [a] runs into [s], a match at [s] is
    reported. *)
Lemma findall_from_reaches (p : pattern) (s x : string) :
  forall a prev skip,
    (forall a1 a2 prev' g n,
        a = a1 +:+ a2 -> a2 <> EmptyString ->
        match_here p None 0%nat prev' (a2 +:+ s) = Some (g, n) ->
        (n <= String.length a2)%nat) ->
    (skip <= String.length a)%nat ->
    (exists n, match_here p None 0%nat (last_of a prev) s = Some (Some x, n)) ->
    x ∈ findall_from p prev skip (a +:+ s).
Proof.
  induction a as [|c a IH]; intros prev skip Hover Hskip [n Hm].
  - cbn [String.length] in Hskip. assert (skip = 0%nat) as -> by lia.
    cbn [String.append]. unfold last_of in Hm. cbn [last_char] in Hm.
    destruct s as [|d s]; cbn [findall_from]; rewrite Hm; left.
  - assert (Hover' : forall a1 a2 prev' g n,
               a = a1 +:+ a2 -> a2 <> EmptyString ->
               match_here p None 0%nat prev' (a2 +:+ s) = Some (g, n) ->
               (n <= String.length a2)%nat).
    { intros a1 a2 prev' g m -> Hne. apply (Hover (String c a1)); auto. }
    rewrite last_of_cons in Hm.
    cbn [String.append findall_from]. destruct skip as [|k].
    + destruct (match_here p None 0%nat prev (String c (a +:+ s)))
        as [[g m]|] eqn:E.
      * right. apply IH; eauto.
        apply (Hover EmptyString (String c a)) in E; [| reflexivity | discriminate].
        cbn [String.length] in E. lia.
      * apply IH; eauto. lia.
    + apply IH; eauto. cbn [String.length] in Hskip. lia.
Qed.

Lemma app_eq_app (a b c d : string) :
  a +:+ b = c +:+ d ->
  (exists e, c = a +:+ e /\ b = e +:+ d)
  \/ (exists e, e <> EmptyString /\ a = c +:+ e /\ d = e +:+ b).
Proof.
  revert c. induction a as [|x a IH]; intros c H.
  - left. exists c. auto.
  - destruct c as [|y c].
    + right. exists (String x a). split; [discriminate | auto].
    + cbn [String.append] in H. injection H as -> H.
      destruct (IH c H) as [(e & -> & ->) | (e & Hne & -> & ->)].
      * left. now exists e.
      * right. now exists e.
Qed.

Lemma all_in_append cls (a b : string) :
  all_in cls (a +:+ b) = all_in cls a && all_in cls b.
Proof.
  induction a as [|c a IH]; simpl; [reflexivity |].
  now rewrite IH, andb_assoc.
Qed.

Lemma all_in_ends_in cls (s : string) :
  s <> EmptyString -> all_in cls s = true -> ends_in cls s = true.
Proof.
  unfold ends_in. induction s as [|c s IH]; [congruence |]. intros _ H.
  cbn [all_in] in H. apply andb_prop in H as [Hc H].
  destruct s as [|d s]; [exact Hc |].
  rewrite last_char_cons by discriminate. apply IH; [discriminate | exact H].
Qed.

Lemma all_in_begins_in cls (s : string) :
  s <> EmptyString -> all_in cls s = true -> begins_in cls s = true.
Proof.
  destruct s as [|c s]; [congruence |]. intros _ H.
  cbn [all_in] in H. now apply andb_prop in H as [Hc _].
Qed.

Lemma begins_in_app cls (a b : string) :
  a <> EmptyString -> begins_in cls (a +:+ b) = begins_in cls a.
Proof. destruct a; [congruence | reflexivity]. Qed.

Lemma ends_in_app cls (a b : string) :
  b <> EmptyString -> ends_in cls (a +:+ b) = ends_in cls b.
Proof. intros Hb. unfold ends_in. now rewrite last_char_app. Qed.

(** ** The five patterns, one by one *)

(** [\b([\w-]+)\s+]: a word that begins at a word boundary and is
    followed by whitespace. *)
Lemma bare_word_found (a x b : string) (c : ascii) :
  ends_in word_or_dash a = false ->
  begins_in isword x = true -> all_in word_or_dash x = true ->
  isspace c = true ->
  x ∈ findall [WordBoundary; GroupPlus word_or_dash; Plus isspace]
        (a +:+ x +:+ String c b).
Proof.
  intros Ha Hx0 Hx Hc.
  assert (Hne : x <> EmptyString) by (destruct x; [discriminate | discriminate]).
  unfold findall. apply findall_from_reaches; [| lia |].
  - intros a1 a2 prev' g n -> Hne2 Hm. cbn [match_here] in Hm.
    destruct (xorb _ _); [| discriminate].
    apply plus_spec in Hm as (t & s' & p1 & Hnt & Hs & Ht & Hm).
    apply plus_spec in Hm as (u & s'' & p2 & Hnu & -> & Hu & Hm).
    injection Hm as _ <-.
    rewrite ends_in_app in Ha by exact Hne2.
    apply app_eq_app in Hs as [(e & -> & Hs) | (e & Hne3 & -> & Hs)].
    + rewrite all_in_append in Ht. apply andb_prop in Ht as [Ht _].
      rewrite (all_in_ends_in _ _ Hne2 Ht) in Ha. discriminate Ha.
    + rewrite string_length_app.
      apply app_eq_app in Hs as [(e' & -> & Hs) | (e' & Hne4 & -> & Hs)].
      * rewrite string_length_app. lia.
      * exfalso. rewrite all_in_append in Hu. apply andb_prop in Hu as [_ Hu].
        apply (all_in_begins_in _ _ Hne4) in Hu.
        rewrite <- (begins_in_app isspace e' s'' Hne4), <- Hs in Hu.
        rewrite begins_in_app in Hu by exact Hne.
        destruct x as [|x0 x]; [congruence |]. cbn [begins_in] in *.
        apply space_not_word in Hu. unfold word_or_dash in Hu.
        rewrite Hx0 in Hu. discriminate Hu.
  - cbn [match_here].
    assert (Hprev : isword_at (last_of a None) = false).
    { unfold last_of, ends_in in *. destruct (last_char a) as [d|]; [| reflexivity].
      cbn [isword_at]. unfold word_or_dash in Ha.
      now apply orb_false_elim in Ha as [-> _]. }
    assert (Hnext : isword_at (first_char (x +:+ String c b)) = true).
    { destruct x as [|x0 x]; [congruence |]. exact Hx0. }
    rewrite Hprev, Hnext. cbn [xorb].
    destruct (plus_any isspace
                (fun taken _ _ =>
                   Some (Some x, (0 + String.length x + String.length taken)%nat))
                (Some x) c b (last_of x (last_of a None)))
      as [n Hn]; [eauto | exact Hc |].
    exists n. apply plus_greedy; auto.
    cbn [begins_in]. now apply space_not_word.
Qed.

(** A literal head followed by the name: [\$\(([\w-]+)] and [`([\w-]+)]. *)
Lemma which_found (a ws x b : string) :
  some_in (Ascii.eqb "w") a = false ->
  ws <> EmptyString -> all_in isspace ws = true ->
  x <> EmptyString -> all_in word_or_dash x = true ->
  begins_in word_or_dash b = false ->
  x ∈ findall (lits "which" ++ [Plus isspace; GroupPlus word_or_dash])
        (a +:+ "which" +:+ ws +:+ x +:+ b).
Proof.
  intros Ha Hnw Hw Hne Hx Hb.
  unfold findall. apply findall_from_reaches; [| lia |].
  - intros a1 a2 prev' g n -> Hne2 Hm. exfalso.
    destruct a2 as [|e a2]; [congruence |].
    cbn [lits app String.append match_here] in Hm.
    destruct (Ascii.eqb "w" e) eqn:E; [| discriminate Hm].
    rewrite some_in_app_r in Ha; [discriminate Ha |].
    cbn [some_in]. now rewrite E.
  - cbn [lits app String.append match_here]. rewrite !Ascii.eqb_refl.
    eexists. apply plus_greedy; auto.
    { rewrite begins_in_app by exact Hne.
      destruct (begins_in isspace x) eqn:E; [| reflexivity].
      destruct x as [|x0 x]; [congruence |]. cbn [begins_in all_in] in *.
      apply andb_prop in Hx as [Hx _]. apply word_not_space in Hx. congruence. }
    apply plus_greedy; auto.
Qed.

Lemma command_v_found (a ws1 ws2 x b : string) :
  some_in (Ascii.eqb "c") a = false ->
  ws1 <> EmptyString -> all_in isspace ws1 = true ->
  ws2 <> EmptyString -> all_in isspace ws2 = true ->
  x <> EmptyString -> all_in word_or_dash x = true ->
  begins_in word_or_dash b = false ->
  x ∈ findall (lits "command" ++ [Plus isspace] ++ lits "-v"
               ++ [Plus isspace; GroupPlus word_or_dash])
        (a +:+ "command" +:+ ws1 +:+ "-v" +:+ ws2 +:+ x +:+ b).
Proof.
  intros Ha Hn1 Hw1 Hn2 Hw2 Hne Hx Hb.
  unfold findall. apply findall_from_reaches; [| lia |].
  - intros a1 a2 prev' g n -> Hne2 Hm. exfalso.
    destruct a2 as [|e a2]; [congruence |].
    cbn [lits app String.append match_here] in Hm.
    destruct (Ascii.eqb "c" e) eqn:E; [| discriminate Hm].
    rewrite some_in_app_r in Ha; [discriminate Ha |].
    cbn [some_in]. now rewrite E.
  - cbn [lits app String.append match_here]. rewrite !Ascii.eqb_refl.
    eexists. apply plus_greedy; auto.
    cbn [lits app String.append match_here]. rewrite !Ascii.eqb_refl.
    apply plus_greedy; auto.
    { rewrite begins_in_app by exact Hne.
      destruct (begins_in isspace x) eqn:E; [| reflexivity].
      destruct x as [|x0 x]; [congruence |]. cbn [begins_in all_in] in *.
      apply andb_prop in Hx as [Hx _]. apply word_not_space in Hx. congruence. }
    apply plus_greedy; auto.
Qed.

(** A literal head that no name can contain, then the name:
    [\$\(([\w-]+)] and [`([\w-]+)]. *)
Lemma substitution_found (a x b : string) :
  x <> EmptyString -> all_in word_or_dash x = true ->
  begins_in word_or_dash b = false ->
  x ∈ findall (lits "$(" ++ [GroupPlus word_or_dash]) (a +:+ "$(" +:+ x +:+ b).
Proof.
  intros Hne Hx Hb.
  unfold findall. apply findall_from_reaches; [| lia |].
  - intros a1 a2 prev' g n -> Hne2 Hm.
    destruct a2 as [|e a2]; [congruence |].
    cbn [lits app String.append match_here] in Hm.
    destruct (Ascii.eqb "$" e); [| discriminate Hm].
    destruct a2 as [|e' a2]; cbn [String.append] in Hm.
    { change (Ascii.eqb "(" "$") with false in Hm. discriminate Hm. }
    destruct (Ascii.eqb "(" e'); [| discriminate Hm].
    apply plus_spec in Hm as (t & s' & p1 & Hnt & Hs & Ht & Hm).
    injection Hm as _ <-. cbn [String.length].
    apply app_eq_app in Hs as [(e3 & -> & Hs) | (e3 & Hne3 & -> & Hs)].
    + destruct e3 as [|e0 e3]; [rewrite append_nil_r; lia |].
      exfalso. injection Hs as <- _.
      rewrite all_in_append in Ht. apply andb_prop in Ht as [_ Ht].
      discriminate Ht.
    + rewrite string_length_app. lia.
  - cbn [lits app String.append match_here]. rewrite !Ascii.eqb_refl.
    eexists. apply plus_greedy; auto.
Qed.

Lemma backquote_found (a x b : string) :
  x <> EmptyString -> all_in word_or_dash x = true ->
  begins_in word_or_dash b = false ->
  x ∈ findall (lits "`" ++ [GroupPlus word_or_dash]) (a +:+ "`" +:+ x +:+ b).
Proof.
  intros Hne Hx Hb.
  unfold findall. apply findall_from_reaches; [| lia |].
  - intros a1 a2 prev' g n -> Hne2 Hm.
    destruct a2 as [|e a2]; [congruence |].
    cbn [lits app String.append match_here] in Hm.
    destruct (Ascii.eqb "`" e); [| discriminate Hm].
    apply plus_spec in Hm as (t & s' & p1 & Hnt & Hs & Ht & Hm).
    injection Hm as _ <-. cbn [String.length].
    apply app_eq_app in Hs as [(e3 & -> & Hs) | (e3 & Hne3 & -> & Hs)].
    + destruct e3 as [|e0 e3]; [rewrite append_nil_r; lia |].
      exfalso. injection Hs as <- _.
      rewrite all_in_append in Ht. apply andb_prop in Ht as [_ Ht].
      discriminate Ht.
    + rewrite string_length_app. lia.
  - cbn [lits app String.append match_here]. rewrite !Ascii.eqb_refl.
    eexists. apply plus_greedy; auto.
Qed.

(** What a pattern of the table finds is reported, unless it is excluded. *)
Lemma found_is_reported (p : pattern) (x content : string) :
  p ∈ command_patterns -> x ∈ findall p content ->
  bool_decide (x ∈ excluded) = false ->
  x ∈ get_script_dependencies content.
Proof.
  intros Hp Hx Hex. unfold get_script_dependencies, sorted.
  rewrite merge_sort_Permutation, elem_of_elements, elem_of_collect.
  split; [eauto |]. now apply bool_decide_eq_false in Hex.
Qed.

(** C9: for every content the list returned is strictly ascending in
    the order of [str], so it is sorted and has no duplicates. A name is
    in it exactly when one of the patterns of the table finds it in the
    content and it is not excluded. The table is fixed: a bare word
    followed by whitespace, the argument of "which", the argument of
    "command -v", and the head of a command substitution, [$(] or
    backquote; the excluded names are the fifteen keywords and builtins.
    Every name reported is a non-empty run of word characters and dashes
    that occurs in the content. And each pattern does find names: a word
    that starts at a word boundary and is followed by whitespace, the
    word after the first "which" or the first "command -v" of the
    content, and the word after any [$(] or backquote, is reported
    unless it is excluded. *)
Theorem dependencies_sorted_unique :
  (forall content,
      StronglySorted str_lt (get_script_dependencies content)
      /\ NoDup (get_script_dependencies content))
  /\ (forall content x,
        x ∈ get_script_dependencies content
        <-> (exists p, p ∈ command_patterns /\ x ∈ findall p content)
            /\ x ∉ excluded)
  /\ command_patterns
     = [ [WordBoundary; GroupPlus word_or_dash; Plus isspace];
         lits "which" ++ [Plus isspace; GroupPlus word_or_dash];
         lits "command" ++ [Plus isspace] ++ lits "-v"
           ++ [Plus isspace; GroupPlus word_or_dash];
         lits "$(" ++ [GroupPlus word_or_dash];
         lits "`" ++ [GroupPlus word_or_dash] ]
  /\ excluded
     = [ "if"; "then"; "else"; "fi"; "for"; "while"; "do"; "done";
         "case"; "esac"; "function"; "return"; "exit"; "echo";
         "printf" ]%string
  /\ (forall content x,
        x ∈ get_script_dependencies content ->
        x <> EmptyString /\ all_in word_or_dash x = true
        /\ occurs_in x content /\ x ∉ excluded)
  /\ (forall (a x b : string) (c : ascii),
        ends_in word_or_dash a = false ->
        begins_in isword x = true -> all_in word_or_dash x = true ->
        isspace c = true ->
        bool_decide (x ∈ excluded) = false ->
        x ∈ get_script_dependencies (a +:+ x +:+ String c b))
  /\ (forall a ws x b : string,
        some_in (Ascii.eqb "w") a = false ->
        ws <> EmptyString -> all_in isspace ws = true ->
        x <> EmptyString -> all_in word_or_dash x = true ->
        begins_in word_or_dash b = false ->
        bool_decide (x ∈ excluded) = false ->
        x ∈ get_script_dependencies (a +:+ "which" +:+ ws +:+ x +:+ b))
  /\ (forall a ws1 ws2 x b : string,
        some_in (Ascii.eqb "c") a = false ->
        ws1 <> EmptyString -> all_in isspace ws1 = true ->
        ws2 <> EmptyString -> all_in isspace ws2 = true ->
        x <> EmptyString -> all_in word_or_dash x = true ->
        begins_in word_or_dash b = false ->
        bool_decide (x ∈ excluded) = false ->
        x ∈ get_script_dependencies
              (a +:+ "command" +:+ ws1 +:+ "-v" +:+ ws2 +:+ x +:+ b))
  /\ (forall a x b : string,
        x <> EmptyString -> all_in word_or_dash x = true ->
        begins_in word_or_dash b = false ->
        bool_decide (x ∈ excluded) = false ->
        x ∈ get_script_dependencies (a +:+ "$(" +:+ x +:+ b)
        /\ x ∈ get_script_dependencies (a +:+ "`" +:+ x +:+ b)).
Proof.
  assert (Hmem : forall content x,
             x ∈ get_script_dependencies content
             <-> (exists p, p ∈ command_patterns /\ x ∈ findall p content)
                 /\ x ∉ excluded).
  { intros content x. unfold get_script_dependencies, sorted.
    rewrite merge_sort_Permutation, elem_of_elements. apply elem_of_collect. }
  split; [| split; [exact Hmem | split; [reflexivity | split; [reflexivity |]]]].
  { intros content. unfold get_script_dependencies, sorted.
    assert (Hnd : NoDup (merge_sort str_le (elements (collect content)))).
    { rewrite merge_sort_Permutation. apply NoDup_elements. }
    split; [| exact Hnd].
    apply sorted_strictly; [| exact Hnd].
    unfold str_le. apply StronglySorted_merge_sort; apply _. }
  split.
  { intros content x Hx. apply Hmem in Hx as [(p & Hp & Hx) Hex].
    apply command_patterns_capture in Hp as [Hg Hhas].
    destruct (findall_from_names word_or_dash p Hg Hhas _ _ _ _ Hx)
      as (? & ? & ?). auto. }
  split.
  { intros a x b c Ha Hx0 Hx Hc Hex.
    apply (found_is_reported
             [WordBoundary; GroupPlus word_or_dash; Plus isspace]);
      [left | | exact Hex].
    now apply bare_word_found. }
  split.
  { intros a ws x b Ha Hnw Hw Hne Hx Hb Hex.
    apply (found_is_reported
             (lits "which" ++ [Plus isspace; GroupPlus word_or_dash]));
      [right; left | | exact Hex].
    now apply which_found. }
  split.
  { intros a ws1 ws2 x b Ha Hn1 Hw1 Hn2 Hw2 Hne Hx Hb Hex.
    apply (found_is_reported
             (lits "command" ++ [Plus isspace] ++ lits "-v"
              ++ [Plus isspace; GroupPlus word_or_dash]));
      [do 2 right; left | | exact Hex].
    now apply command_v_found. }
  intros a x b Hne Hx Hb Hex. split.
  - apply (found_is_reported (lits "$(" ++ [GroupPlus word_or_dash]));
      [do 3 right; left | | exact Hex].
    now apply substitution_found.
  - apply (found_is_reported (lits "`" ++ [GroupPlus word_or_dash]));
      [do 4 right; left | | exact Hex].
    now apply backquote_found.
Qed.

Lemma dependencies_sorted_unique_witness :
  "git"%string ∈ get_script_dependencies "which git"
  /\ "date"%string ∈ get_script_dependencies "now=$(date)".
Proof.
  split.
  - apply (proj1 (proj2 (proj2 (proj2 (proj2 (proj2 (proj2
             dependencies_sorted_unique))))))
             EmptyString " " "git" EmptyString);
      solve [reflexivity | discriminate].
  - apply (proj2 (proj2 (proj2 (proj2 (proj2 (proj2 (proj2 (proj2
             dependencies_sorted_unique)))))))
             "now=" "date" ")");
      solve [reflexivity | discriminate].
Defined.

(** The scan of a script that uses every kind of pattern. *)
Example dependencies_of_a_script :
  get_script_dependencies
    ("if command -v curl; then" +:+ nl
     +:+ "  now=$(date); host=`uname -n`" +:+ nl
     +:+ "  which git" +:+ nl
     +:+ "fi" +:+ nl)
  = ["command"; "curl"; "date"; "git"; "uname"; "v"; "which"]%string.
Proof. vm_compute. reflexivity. Qed.

(* ===================================================================== *)
(** * What the Execution Controller can raise                           *)
(* ===================================================================== *)

Import Cli.

(** A system where every call raises only what it documents runs well;
    the converse fails, as a system that runs well may fail in any way
    to write the script file or to make it executable. *)
Lemma well_behaved_runs_well (os : OS) : well_behaved os -> runs_well os.
Proof. intros []. constructor; assumption. Qed.

(** Case analysis on an answer of a system that runs well. *)
Ltac rw_answer Hrw :=
  lazymatch goal with
  | |- match os_getpgid ?os ?h ?p with _ => _ end =>
      let H := fresh in
      pose proof (rw_getpgid os Hrw h p) as H;
      destruct (os_getpgid os h p) as [?|[[] ?]];
      eval_clause; try discriminate H; clear H
  | |- match os_killpg ?os ?h ?g ?s with _ => _ end =>
      let H := fresh in
      pose proof (rw_killpg os Hrw h g s) as H;
      destruct (os_killpg os h g s) as [[]|[[] ?]];
      eval_clause; try discriminate H; clear H
  | |- match os_wait ?os ?h ?p (Some ?t) with _ => _ end =>
      let H := fresh in
      pose proof (rw_wait_bounded os Hrw h p t) as H;
      destruct (os_wait os h p (Some t)) as [?|[[] ?]];
      eval_clause; try discriminate H; clear H
  | |- match os_wait ?os ?h ?p None with _ => _ end =>
      let H := fresh in
      pose proof (rw_wait os Hrw h p) as H;
      destruct (os_wait os h p None) as [?|?];
      eval_clause; try discriminate H; clear H
  | |- match os_unlink ?os ?h ?p with _ => _ end =>
      let H := fresh in
      pose proof (rw_unlink os Hrw h p) as H;
      destruct (os_unlink os h p) as [[]|[[] ?]];
      eval_clause; try discriminate H; clear H
  | |- match os_popen ?os ?h ?a ?c with _ => _ end =>
      let H := fresh in
      pose proof (rw_popen os Hrw h a c) as H;
      destruct (os_popen os h a c) as [?|[[] ?]];
      eval_clause; try discriminate H; clear H
  | |- match os_communicate ?os ?h ?p ?t with _ => _ end =>
      let H := fresh in
      pose proof (rw_communicate os Hrw h p t) as H;
      destruct (os_communicate os h p t) as [[[? ?] ?]|[[] ?]];
      eval_clause; try discriminate H; clear H
  end.

Ltac wp_rw Hrw :=
  repeat first
    [ wp_step; cbn beta iota
    | progress cbn [self events fst snd current_process]
    | match goal with
      | H : current_process (self ?w) = _
        |- context [current_process (self ?w)] => rewrite H
      end
    | rw_answer Hrw ].

(** X7: on a system that runs well, whatever happens when the script
    file is set up, [execute] raises in three cases only: the
    input-validation error for blank content; what creating, writing or
    closing the temporary file raised (an [OSError], or the
    [UnicodeEncodeError] of a content that cannot be encoded); and what
    making the file executable raised. In the last two cases no process
    was spawned. *)
Theorem execute_raises_only_setup_errors (content : string) (t : option Z)
    (os : OS) (w : world) (e : exn) :
  runs_well os ->
  fst (execute content t os w) = Raise e ->
  (whitespace_only content = true
   /\ e = mk_exn ValueError "Script content cannot be empty")
  \/ (whitespace_only content = false
      /\ count is_popen (new_events (execute content t) os w) = 0%nat
      /\ (os_tempfile os (events w) (_prepare_script content) = Raise e
          \/ exists path,
               os_tempfile os (events w) (_prepare_script content)
               = Return path
               /\ os_chmod os
                    (events w
                     ++ [EvTempFile (_prepare_script content) (Return path)])
                    path 493
                  = Raise e)).
Proof.
  intros Hrw.
  enough (H : post (execute content t) os w
            (fun r w' =>
               r = Raise e ->
               (whitespace_only content = true
                /\ e = mk_exn ValueError "Script content cannot be empty")
               \/ (whitespace_only content = false
                   /\ (exists l, events w' = events w ++ l
                                 /\ count is_popen l = 0%nat)
                   /\ (os_tempfile os (events w) (_prepare_script content)
                       = Raise e
                       \/ exists path,
                            os_tempfile os (events w) (_prepare_script content)
                            = Return path
                            /\ os_chmod os
                                 (events w
                                  ++ [EvTempFile (_prepare_script content)
                                        (Return path)])
                                 path 493
                               = Raise e)))).
  { unfold post in H. intros Hr.
    destruct (H Hr) as [? | (Hb & (l & Hl & Hc) & Hs)]; [now left | right].
    split; [exact Hb |]. split; [| exact Hs].
    unfold new_events. rewrite Hl, drop_app_length. exact Hc. }
  unfold execute. rewrite truthy_strip.
  destruct (whitespace_only content) eqn:Hblank; cbn [negb].
  { wp. intros [= <-]. now left. }
  wp.
  destruct (os_tempfile os (events w) (_prepare_script content))
    as [path|e0] eqn:Htmp.
  2:{ intros [= ->]. right. split; [reflexivity |].
      split; [read_log; reflexivity | now left]. }
  wp. cbn [self events].
  destruct (os_chmod os _ path 493) as [[]|e0] eqn:Hch.
  - unfold _run_script, kill_process_group.
    wp_rw Hrw; discriminate.
  - wp. cbn [self events].
    rw_answer Hrw; wp; intros [= ->]; right;
      (split; [reflexivity |]);
      (split; [read_log; reflexivity | right; eauto]).
Qed.

Lemma execute_raises_only_setup_errors_witness :
  count is_popen
    (new_events (execute "echo hi" None) Faults.os_unencodable Env.fresh)
  = 0%nat.
Proof.
  destruct (execute_raises_only_setup_errors "echo hi" None
              Faults.os_unencodable Env.fresh Faults.unencodable)
    as [[Hb _] | (_ & Hc & _)].
  - constructor; intros; reflexivity.
  - reflexivity.
  - discriminate Hb.
  - exact Hc.
Defined.

(* ===================================================================== *)
(** * The command line                                                  *)
(* ===================================================================== *)

Lemma cbind_print {B} (r : renderable) (k : unit -> C B) os tty st :
  cbind (console_print r) k os tty st
  = k tt os tty (shows st (bash_executor st) [r]).
Proof. reflexivity. Qed.

Lemma cbind_print_shows {B} (r : renderable) (k : unit -> C B) os tty st w l :
  cbind (console_print r) k os tty (shows st w l)
  = k tt os tty (shows st w (l ++ [r])).
Proof.
  unfold cbind, console_print, shows. cbn. now rewrite <- app_assoc.
Qed.

Lemma print_shows (r : renderable) os tty st w l :
  console_print r os tty (shows st w l) = (Return tt, shows st w (l ++ [r])).
Proof.
  unfold console_print, shows. cbn. now rewrite <- app_assoc.
Qed.

Lemma cbind_assoc {A B D} (m : C A) (f : A -> C B) (g : B -> C D) os tty st :
  cbind (cbind m f) g os tty st
  = cbind m (fun x => cbind (f x) g) os tty st.
Proof. unfold cbind. now destruct (m os tty st) as [[a|e] st']. Qed.

Lemma cbind_when {B} (b : bool) (body : C unit) (k : unit -> C B) os tty st :
  cbind (when b body) k os tty st
  = if b then cbind body k os tty st else k tt os tty st.
Proof. now destruct b. Qed.

(** [_execute_script_content], path by path. *)
Lemma execute_script_content_eq (content name : string) os tty st :
  _execute_script_content content name os tty st
  = if whitespace_only content
    then (Return tt,
          shows st (bash_executor st) [RText (format_error "Script is empty.")])
    else
      match tty (console st ++ announcement content name)
                "Execute this script?" with
      | Raise e =>
          (Raise e, shows st (bash_executor st) (announcement content name))
      | Return false =>
          (Return tt,
           shows st (bash_executor st)
             (announcement content name
              ++ [RText (format_info "Execution cancelled.")]))
      | Return true =>
          match execute content None os (bash_executor st) with
          | (Return result, w') =>
              (Return tt,
               shows st w' (announcement content name ++ report result))
          | (Raise e, w') =>
              if isinstance e [Exception]
              then (Return tt,
                    shows st w'
                      (announcement content name
                       ++ [RText (format_error
                                    ("Execution failed: " +:+ exn_str e))]))
              else (Raise e, shows st w' (announcement content name))
          end
      end.
Proof.
  unfold _execute_script_content. rewrite truthy_strip.
  destruct (whitespace_only content); cbn [negb]; [reflexivity |].
  rewrite cbind_print, cbind_print_shows.
  change ([RText (format_info ("Executing script: " +:+ name))]
          ++ [RPanel (RSyntax content "bash" "monokai" true)
                ("Script: " +:+ name) "blue"])
    with (announcement content name).
  generalize (announcement content name). intros shown.
  unfold cbind at 1, confirm. cbn [shows console].
  destruct (tty (console st ++ shown) "Execute this script?"%string)
    as [[|]|e]; cbn [negb].
  - unfold try_except_Exception, cbind at 1, on_executor.
    cbn [shows bash_executor console current_script_name script_lines].
    destruct (execute content None os (bash_executor st)) as [[r|e] w'].
    + change {| bash_executor := w'; console := console st ++ shown;
                current_script_name := current_script_name st;
                script_lines := script_lines st |}
        with (shows st w' shown).
      rewrite !cbind_print_shows, cbind_when.
      unfold report.
      destruct (truthy (Result.stdout r)).
      * rewrite cbind_assoc, !cbind_print_shows, cbind_when.
        destruct (truthy (Result.stderr r)).
        -- rewrite cbind_assoc, !cbind_print_shows, print_shows.
           rewrite <- !app_assoc. reflexivity.
        -- rewrite !cbind_print_shows, print_shows.
           rewrite <- !app_assoc. reflexivity.
      * rewrite cbind_when.
        destruct (truthy (Result.stderr r)).
        -- rewrite cbind_assoc, !cbind_print_shows, print_shows.
           rewrite <- !app_assoc. reflexivity.
        -- rewrite !cbind_print_shows, print_shows.
           rewrite <- !app_assoc. reflexivity.
    + destruct (isinstance e [Exception]); [| reflexivity].
      change {| bash_executor := w'; console := console st ++ shown;
                current_script_name := current_script_name st;
                script_lines := script_lines st |}
        with (shows st w' shown).
      now rewrite print_shows.
  - change {| bash_executor := bash_executor st;
              console := console st ++ shown;
              current_script_name := current_script_name st;
              script_lines := script_lines st |}
      with (shows st (bash_executor st) shown).
    now rewrite print_shows.
  - reflexivity.
Qed.

(** X14: an error of the executor is reported, not raised. When the
    user has agreed to run a script that is not blank and [execute]
    raises an Exception, [_execute_script_content] returns, and what it
    printed after the announcement is one line in the error style:
    "Execution failed: " followed by the description of the exception.
    An exception that is not an Exception (a KeyboardInterrupt) leaves
    the command with nothing printed after the announcement. In both
    cases the executor is left as [execute] left it. The name of the
    script holds no ["["], so the title of the panel has no markup. *)
Theorem cli_reports_executor_errors (content name : string) (os : OS)
    (tty : terminal) (st : cli) (e : exn) (w' : world) :
  whitespace_only content = false ->
  markup_free name = true ->
  tty (console st ++ announcement content name) "Execute this script?"
  = Return true ->
  execute content None os (bash_executor st) = (Raise e, w') ->
  (isinstance e [Exception] = true ->
   _execute_script_content content name os tty st
   = (Return tt,
      shows st w'
        (announcement content name
         ++ [RText (format_error ("Execution failed: " +:+ exn_str e))])))
  /\ (isinstance e [Exception] = false ->
      _execute_script_content content name os tty st
      = (Raise e, shows st w' (announcement content name))).
Proof.
  intros Hblank _ Hyes Hrun.
  split; intros He;
    now rewrite execute_script_content_eq, Hblank, Hyes, Hrun, He.
Qed.

Lemma cli_reports_executor_errors_witness :
  _execute_script_content "echo hi" "greet" Faults.os_no_chmod
    says_yes (session Env.fresh)
  = (Return tt,
     shows (session Env.fresh)
       (snd (execute "echo hi" None Faults.os_no_chmod Env.fresh))
       (announcement "echo hi" "greet"
        ++ [RText (format_error
                     "Execution failed: [Errno 13] Permission denied")])).
Proof.
  apply (proj1 (cli_reports_executor_errors "echo hi" "greet"
                  Faults.os_no_chmod says_yes (session Env.fresh)
                  Faults.permission_denied
                  (snd (execute "echo hi" None Faults.os_no_chmod Env.fresh))
                  eq_refl eq_refl eq_refl eq_refl)).
  reflexivity.
Defined.

(** X15: the command line runs nothing without consent: when the content
    is blank, or the user does not answer yes to "Execute this script?",
    the executor is left as it was and the operating system is not
    called. *)
Theorem cli_asks_before_running (content name : string) (os : OS)
    (tty : terminal) (st : cli) :
  whitespace_only content = true
  \/ tty (console st ++ announcement content name) "Execute this script?"
     <> Return true ->
  bash_executor (snd (_execute_script_content content name os tty st))
  = bash_executor st.
Proof.
  intros H. rewrite execute_script_content_eq.
  destruct (whitespace_only content); [reflexivity |].
  destruct H as [H | H]; [discriminate H |].
  destruct (tty _ "Execute this script?"%string) as [[|]|e];
    [congruence | reflexivity | reflexivity].
Qed.

Lemma cli_asks_before_running_witness :
  bash_executor (snd (_execute_script_content "rm -rf build" "clean"
                        Env.os_ok says_no (session Env.fresh)))
  = Env.fresh.
Proof.
  apply (cli_asks_before_running "rm -rf build" "clean" Env.os_ok says_no
           (session Env.fresh)).
  right. discriminate.
Defined.



Lemma whitespace_only_app (a b : string) :
  whitespace_only (a +:+ b) = whitespace_only a && whitespace_only b.
Proof.
  induction a as [|c a IH]; simpl; [reflexivity |].
  now rewrite IH, andb_assoc.
Qed.

Lemma whitespace_only_join (ls : list string) :
  whitespace_only (join nl ls) = forallb whitespace_only ls.
Proof.
  induction ls as [|x [|y ls] IH].
  - reflexivity.
  - simpl. now rewrite andb_true_r.
  - change (join nl (x :: y :: ls)) with (x +:+ nl +:+ join nl (y :: ls)).
    rewrite !whitespace_only_app, IH. reflexivity.
Qed.

(** X17: a script being edited whose lines are all blank is not run:
    the run command prints one error ("No script to run..." for no lines,
    "Script is empty." otherwise), does not ask and leaves the executor
    as it was. *)
Theorem cli_blank_script_not_run (os : OS) (tty : terminal) (st : cli) :
  forallb whitespace_only (script_lines st) = true ->
  _run_current_script os tty st
  = (Return tt,
     shows st (bash_executor st)
       [RText (format_error
                 (match script_lines st with
                  | [] => "No script to run. Create or load a script first."
                  | _ => "Script is empty."
                  end))]).
Proof.
  intros Hall. unfold _run_current_script.
  destruct (script_lines st) as [|l ls] eqn:Hls; [reflexivity |].
  rewrite execute_script_content_eq, whitespace_only_join, Hall.
  reflexivity.
Qed.

Lemma cli_blank_script_not_run_witness :
  bash_executor
    (snd (_run_current_script Env.os_ok says_yes
            {| bash_executor := Env.fresh; console := [];
               current_script_name := Some "draft"%string;
               script_lines := [""; "   "]%string |}))
  = Env.fresh.
Proof.
  rewrite (cli_blank_script_not_run Env.os_ok says_yes
             {| bash_executor := Env.fresh; console := [];
                current_script_name := Some "draft"%string;
                script_lines := [""; "   "]%string |} eq_refl).
  reflexivity.
Defined.

(* ===================================================================== *)
(** * Script files                                                      *)
(* ===================================================================== *)

Import Scripts.

Lemma all_in_select f (s : string) : all_in f (select f s) = true.
Proof.
  induction s as [|c s IH]; simpl; [reflexivity |].
  destruct (f c) eqn:E; simpl; [now rewrite E | exact IH].
Qed.

Lemma select_all_in f (s : string) : all_in f s = true -> select f s = s.
Proof.
  induction s as [|c s IH]; simpl; [reflexivity |].
  intros H. apply andb_prop in H as [-> H]. now rewrite IH.
Qed.

Lemma all_in_app f (a b : string) :
  all_in f (a +:+ b) = all_in f a && all_in f b.
Proof.
  induction a as [|c a IH]; simpl; [reflexivity |].
  now rewrite IH, andb_assoc.
Qed.

Lemma endswith_app (a suffix : string) : endswith (a +:+ suffix) suffix = true.
Proof.
  induction a as [|c a IH]; simpl.
  - destruct suffix; cbn [endswith]; rewrite String.eqb_refl; reflexivity.
  - rewrite IH. apply orb_true_r.
Qed.

Lemma all_in_none f g (s : string) :
  (forall c, f c = true -> g c = false) ->
  all_in f s = true -> some_in g s = false.
Proof.
  intros Hfg. induction s as [|c s IH]; simpl; [reflexivity |].
  intros H. apply andb_prop in H as [Hc H]. now rewrite (Hfg c Hc), IH.
Qed.

Lemma kept_not_separator (c : ascii) : kept c = true -> Ascii.eqb "/" c = false.
Proof.
  intros H. destruct (Ascii.eqb "/" c) eqn:E; [| reflexivity].
  apply Ascii.eqb_eq in E. subst c. discriminate H.
Qed.

(** What [_get_script_path] returns, in one equation. *)
Lemma get_script_path_spec (script_dir name : string) :
  match _get_script_path script_dir name with
  | Return p =>
      directory p = script_dir
      /\ select kept name <> EmptyString
      /\ all_in kept (file_name p) = true
      /\ endswith (file_name p) ".sh" = true
  | Raise e =>
      e = mk_exn ValueError "Invalid script name"
      /\ select kept name = EmptyString
  end.
Proof.
  unfold _get_script_path.
  destruct (select kept name) as [|c s] eqn:E; cbn [truthy negb]; [auto |].
  assert (Hall : all_in kept (String c s) = true).
  { rewrite <- E. apply all_in_select. }
  destruct (endswith (String c s) ".sh") eqn:Hend; cbn [negb directory file_name].
  - split; [reflexivity |]. split; [discriminate |].
    split; [exact Hall | exact Hend].
  - split; [reflexivity |]. split; [discriminate |].
    split; [| apply endswith_app].
    rewrite all_in_app, Hall. reflexivity.
Qed.

(** X18: the file a script name is mapped to lies in the script
    directory: its name is made of the kept characters only
    (alphanumerics, ".", "_" and "-"), ends with ".sh", contains no "/"
    and is neither "." nor ".."; a name without any kept character is
    rejected with the [ValueError] "Invalid script name". *)
Theorem script_path_is_confined (script_dir name : string) :
  match _get_script_path script_dir name with
  | Return p =>
      directory p = script_dir
      /\ all_in kept (file_name p) = true
      /\ endswith (file_name p) ".sh" = true
      /\ some_in (Ascii.eqb "/") (file_name p) = false
      /\ file_name p <> "."%string /\ file_name p <> ".."%string
  | Raise e =>
      e = mk_exn ValueError "Invalid script name"
      /\ some_in kept name = false
  end.
Proof.
  pose proof (get_script_path_spec script_dir name) as H.
  destruct (_get_script_path script_dir name) as [p|e].
  - destruct H as (Hd & _ & Hall & Hend).
    repeat split; auto.
    + exact (all_in_none kept _ _ kept_not_separator Hall).
    + intros E. rewrite E in Hend. discriminate Hend.
    + intros E. rewrite E in Hend. discriminate Hend.
  - destruct H as [-> Hs]. split; [reflexivity |].
    clear -Hs. induction name as [|c s IH]; simpl in *; [reflexivity |].
    destruct (kept c); [discriminate Hs | auto].
Qed.

(** X19: the mapping is idempotent: the file name a script name is mapped
    to is mapped to itself, so the extension is never appended twice. *)
Theorem script_path_is_stable (script_dir name : string) (p : Path) :
  _get_script_path script_dir name = Return p ->
  _get_script_path script_dir (file_name p) = Return p.
Proof.
  intros H. pose proof (get_script_path_spec script_dir name) as Hs.
  rewrite H in Hs. destruct Hs as (Hd & Hne & Hall & Hend).
  unfold _get_script_path. rewrite (select_all_in kept _ Hall), Hend.
  destruct p as [d f]; cbn [file_name directory] in *. subst d.
  destruct f; [discriminate Hend | reflexivity].
Qed.

Lemma script_path_is_stable_witness :
  _get_script_path "scripts" "....etcpasswd.sh"
  = Return (truediv "scripts" "....etcpasswd.sh").
Proof.
  apply (script_path_is_stable "scripts" "../../etc/passwd"
           (truediv "scripts" "....etcpasswd.sh")).
  reflexivity.
Defined.
